(** * Realtime connection manager of fal-js

    A shallow embedding of the realtime client: the token store and
    connection registry of [connectionManager], [getToken],
    [getConnection], and the session closure returned by
    [realtimeImpl.connect] ([_send], [send], [reconnect], the four socket
    listeners and [close]).

    JavaScript runs the client on one event loop.  Every task of that loop
    (a call made by the application, a socket event, a timer, the answer to
    the token request) is an [event] here, and [step] runs the code of that
    task to completion on an explicit [state].  The state holds what the
    source keeps in closures: the three maps of [connectionManager], and per
    session the variables [pendingMessage], [reconnecting] and [ws].

    The callbacks chained on a promise are queued when the promise settles
    and run once the code of the task has returned, before any other task:
    [handle] runs the code of a task and [drain] the callbacks it queued.
    The application makes one call per task ([EvConnect], [EvSend],
    [EvClose]) or several in a row within one task ([EvCalls]).  A socket,
    a session and an outstanding token request are named by their index in
    the state. *)

From stdpp Require Import base strings gmap list pretty.
From Stdlib Require Import ZArith Lia Ascii.

#[local] Set Warnings "-register-all".

(** ** JavaScript values *)

(** JSON values, as produced by [JSON.parse] and accepted as payloads.
    Numbers are kept as integers: the code only tests them for truthiness. *)
Inductive json : Type :=
  | JNull
  | JBool (b : bool)
  | JNum (n : Z)
  | JStr (s : string)
  | JArr (xs : list json)
  | JObj (fields : list (string * json)).

(** [if (v)] on a value. *)
Definition truthy (v : json) : bool :=
  match v with
  | JNull => false
  | JBool b => b
  | JNum n => negb (n =? 0)%Z
  | JStr s => negb (String.eqb s "")
  | JArr _ | JObj _ => true
  end.

(** A value that may be [undefined] is an [option json]. *)
Definition truthy_opt (v : option json) : bool :=
  match v with Some x => truthy x | None => false end.

(** Outcome of an expression that may throw. *)
Inductive completion (A : Type) : Type :=
  | Normal (a : A)
  | Throw.
Arguments Normal {A} a.
Arguments Throw {A}.

Fixpoint assoc (k : string) (fs : list (string * json)) : option json :=
  match fs with
  | [] => None
  | (k', v) :: rest => if String.eqb k' k then Some v else assoc k rest
  end.

(** [v.k] / [v['k']] for the keys the client reads ([status], [type],
    [detail]): a [TypeError] on [null], the own property on an object, and
    [undefined] on every other value (no prototype carries these names). *)
Definition get_prop (v : json) (k : string) : completion (option json) :=
  match v with
  | JNull => Throw
  | JObj fs => Normal (assoc k fs)
  | _ => Normal None
  end.

(** [v === 'lit'] for a value that may be undefined. *)
Definition is_string (v : option json) (lit : string) : bool :=
  match v with
  | Some (JStr s) => String.eqb s lit
  | _ => false
  end.

(** ** Strings: [split] and [join] with a one-character separator *)

Fixpoint split (sep : Ascii.ascii) (s : string) : list string :=
  match s with
  | EmptyString => [EmptyString]
  | String c r =>
      if Ascii.eqb c sep then EmptyString :: split sep r
      else match split sep r with
           | hd :: tl => String c hd :: tl
           | [] => [String c EmptyString]
           end
  end.

Fixpoint join (sep : string) (parts : list string) : string :=
  match parts with
  | [] => EmptyString
  | [p] => p
  | p :: rest => p +:+ sep +:+ join sep rest
  end.

(** ** Data *)

(** What the client reads from [getConfig], [getRestApiUrl] and the runtime
    probes [isReact], [isBrowser] and [typeof window]. *)
Record config := {
  host : string;
  restApiUrl : string;
  isReact : bool;
  isBrowser : bool;
  hasWindow : bool;
  (** whether [new WebSocket] accepts the URL made of the realtime URL and
      the token, [`${url}?fal_jwt_token=${token}`]; it throws otherwise *)
  websocketAccepts : string → json → bool;
}.

Inductive ready_state := CONNECTING | OPEN | CLOSING | CLOSED.

Global Instance ready_state_eq_dec : EqDecision ready_state.
Proof. solve_decision. Defined.

(** A [WebSocket] object.  [ws_url] and [ws_token] are the two parts of
    [`${url}?fal_jwt_token=${token}`].  The four listeners [onopen],
    [onclose], [onerror] and [onmessage] are always assigned together, by
    one session: [listeners] names that session. *)
Record WebSocket := {
  readyState : ready_state;
  ws_url : string;
  ws_token : json;
  listeners : option nat;
}.

Record ApiError := {
  message : string;
  status : Z;
}.

(** Calls that leave the client. *)
Inductive effect :=
  (** [ws.send(JSON.stringify({request_id, ...input}))] on socket [k] *)
  | WsSend (k : nat) (request_id : string) (input : json)
  (** [ws.close(code, reason)] on socket [k] *)
  | WsClose (k : nat) (code : Z) (reason : string)
  | OnResult (sid : nat) (data : json)
  | OnError (sid : nat) (e : ApiError)
  (** [dispatchRequest(method, url, body)] *)
  | DispatchRequest (method target : string) (body : json).

(** The variables closed over by one call of [connect]. *)
Record session := {
  app : string;
  connectionKey : string;
  throttleInterval : Z;
  pendingMessage : option json;
  reconnecting : bool;
  ws : option nat;
  (** state of the throttle around [_send]: the deadline of the running
      window and the arguments of its latest call *)
  window : option (Z * json);
}.

(** A [getConnection] suspended at [await connectionManager.refreshToken],
    with the session whose [reconnect] chained [then]/[catch] on it. *)
Record token_request := {
  rq_app : string;
  rq_key : string;
  rq_session : nat;
}.

Record state := {
  cfg : config;
  (** the clock, in milliseconds *)
  now : Z;
  (** how many identifiers [crypto.randomUUID] has handed out *)
  uuids : nat;
  connections : gmap string nat;
  tokens : gmap string json;
  authInProgress : gset string;
  sockets : list WebSocket;
  sessions : list session;
  inflight : list token_request;
  (** pending [setTimeout(() => tokens.delete(app), ...)]: due time, app *)
  timeouts : list (Z * string);
  log : list effect;
}.

Definition init (c : config) : state :=
  {| cfg := c; now := 0; uuids := 0; connections := ∅; tokens := ∅;
     authInProgress := ∅; sockets := []; sessions := []; inflight := [];
     timeouts := []; log := [] |}.

(** *** Field updates *)

Definition set_now (x : Z) (st : state) : state :=
  {| cfg := cfg st; now := x; uuids := uuids st;
     connections := connections st; tokens := tokens st;
     authInProgress := authInProgress st; sockets := sockets st;
     sessions := sessions st; inflight := inflight st;
     timeouts := timeouts st; log := log st |}.

Definition set_uuids (x : nat) (st : state) : state :=
  {| cfg := cfg st; now := now st; uuids := x;
     connections := connections st; tokens := tokens st;
     authInProgress := authInProgress st; sockets := sockets st;
     sessions := sessions st; inflight := inflight st;
     timeouts := timeouts st; log := log st |}.

Definition set_connections (x : gmap string nat) (st : state) : state :=
  {| cfg := cfg st; now := now st; uuids := uuids st;
     connections := x; tokens := tokens st;
     authInProgress := authInProgress st; sockets := sockets st;
     sessions := sessions st; inflight := inflight st;
     timeouts := timeouts st; log := log st |}.

Definition set_tokens (x : gmap string json) (st : state) : state :=
  {| cfg := cfg st; now := now st; uuids := uuids st;
     connections := connections st; tokens := x;
     authInProgress := authInProgress st; sockets := sockets st;
     sessions := sessions st; inflight := inflight st;
     timeouts := timeouts st; log := log st |}.

Definition set_authInProgress (x : gset string) (st : state) : state :=
  {| cfg := cfg st; now := now st; uuids := uuids st;
     connections := connections st; tokens := tokens st;
     authInProgress := x; sockets := sockets st;
     sessions := sessions st; inflight := inflight st;
     timeouts := timeouts st; log := log st |}.

Definition set_sockets (x : list WebSocket) (st : state) : state :=
  {| cfg := cfg st; now := now st; uuids := uuids st;
     connections := connections st; tokens := tokens st;
     authInProgress := authInProgress st; sockets := x;
     sessions := sessions st; inflight := inflight st;
     timeouts := timeouts st; log := log st |}.

Definition set_sessions (x : list session) (st : state) : state :=
  {| cfg := cfg st; now := now st; uuids := uuids st;
     connections := connections st; tokens := tokens st;
     authInProgress := authInProgress st; sockets := sockets st;
     sessions := x; inflight := inflight st;
     timeouts := timeouts st; log := log st |}.

Definition set_inflight (x : list token_request) (st : state) : state :=
  {| cfg := cfg st; now := now st; uuids := uuids st;
     connections := connections st; tokens := tokens st;
     authInProgress := authInProgress st; sockets := sockets st;
     sessions := sessions st; inflight := x;
     timeouts := timeouts st; log := log st |}.

Definition set_timeouts (x : list (Z * string)) (st : state) : state :=
  {| cfg := cfg st; now := now st; uuids := uuids st;
     connections := connections st; tokens := tokens st;
     authInProgress := authInProgress st; sockets := sockets st;
     sessions := sessions st; inflight := inflight st;
     timeouts := x; log := log st |}.

Definition set_log (x : list effect) (st : state) : state :=
  {| cfg := cfg st; now := now st; uuids := uuids st;
     connections := connections st; tokens := tokens st;
     authInProgress := authInProgress st; sockets := sockets st;
     sessions := sessions st; inflight := inflight st;
     timeouts := timeouts st; log := x |}.

Definition emit (e : effect) (st : state) : state :=
  set_log (log st ++ [e]) st.

Definition with_pendingMessage (m : option json) (s : session) : session :=
  {| app := app s; connectionKey := connectionKey s;
     throttleInterval := throttleInterval s; pendingMessage := m;
     reconnecting := reconnecting s; ws := ws s; window := window s |}.

Definition with_reconnecting (b : bool) (s : session) : session :=
  {| app := app s; connectionKey := connectionKey s;
     throttleInterval := throttleInterval s;
     pendingMessage := pendingMessage s;
     reconnecting := b; ws := ws s; window := window s |}.

Definition with_ws (w : option nat) (s : session) : session :=
  {| app := app s; connectionKey := connectionKey s;
     throttleInterval := throttleInterval s;
     pendingMessage := pendingMessage s;
     reconnecting := reconnecting s; ws := w; window := window s |}.

Definition with_window (w : option (Z * json)) (s : session) : session :=
  {| app := app s; connectionKey := connectionKey s;
     throttleInterval := throttleInterval s;
     pendingMessage := pendingMessage s;
     reconnecting := reconnecting s; ws := ws s; window := w |}.

Definition with_readyState (r : ready_state) (w : WebSocket) : WebSocket :=
  {| readyState := r; ws_url := ws_url w; ws_token := ws_token w;
     listeners := listeners w |}.

Definition with_listeners (l : option nat) (w : WebSocket) : WebSocket :=
  {| readyState := readyState w; ws_url := ws_url w; ws_token := ws_token w;
     listeners := l |}.

(** Assignment to a variable of session [sid]. *)
Definition upd_session (sid : nat) (f : session → session) (st : state)
  : state :=
  set_sessions (alter f sid (sessions st)) st.

Definition upd_socket (k : nat) (f : WebSocket → WebSocket) (st : state)
  : state :=
  set_sockets (alter f k (sockets st)) st.

(** [crypto.randomUUID()]: the [n]-th identifier handed out. *)
Definition randomUUID (st : state) : string * state :=
  ("uuid-" +:+ pretty (uuids st), set_uuids (S (uuids st)) st).

(** ** Token acquisition *)

Definition TOKEN_EXPIRATION_SECONDS : Z := 120.

(** [const [_, ...appAlias] = app.split('-')] then [appAlias.join('-')]. *)
Definition appAlias (app : string) : string :=
  join "-" (tail (split "-"%char app)).

(** The body [getToken] posts to the token endpoint. *)
Definition getToken_body (app : string) : json :=
  JObj [("allowed_apps", JArr [JStr (appAlias app)]);
        ("token_expiration", JNum 120)].

(** [getToken] up to its [await]: the request leaves. *)
Definition getToken_request (app : string) (st : state) : state :=
  emit (DispatchRequest "POST"
          ("https://" +:+ restApiUrl (cfg st) +:+ "/tokens/")
          (getToken_body app)) st.

(** [getToken] after its [await], on the value the request resolved to: a
    wrapped answer is unwrapped from its [detail] field. *)
Definition getToken_resume (token : json) : completion json :=
  match token with
  | JStr _ => Normal token
  | _ =>
      match get_prop token "detail" with
      | Throw => Throw
      | Normal (Some d) => if truthy d then Normal d else Normal token
      | Normal None => Normal token
      end
  end.

(** Delay of the expiry timer, [TOKEN_EXPIRATION_SECONDS * 0.9 * 1000]
    milliseconds; the factor 0.9 is written 9/10 (the product is the exact
    integer in double arithmetic as well). *)
Definition token_timeout_ms : Z :=
  (TOKEN_EXPIRATION_SECONDS * 9 / 10 * 1000)%Z.

Module connectionManager.

Definition token (app : string) (st : state) : option json :=
  tokens st !! app.

Definition expireToken (app : string) (st : state) : state :=
  set_tokens (delete app (tokens st)) st.

(** [refreshToken] up to the [await] inside [getToken]. *)
Definition refreshToken (app : string) (st : state) : state :=
  getToken_request app st.

(** [refreshToken] once the request has settled; [None] is a rejected
    request.  A failure stores nothing and is passed on to the caller. *)
Definition refreshToken_resume (app : string) (answer : option json)
    (st : state) : completion json * state :=
  match answer with
  | None => (Throw, st)
  | Some r =>
      match getToken_resume r with
      | Throw => (Throw, st)
      | Normal token =>
          let st1 := set_tokens (<[app := token]> (tokens st)) st in
          let st2 :=
            set_timeouts
              (timeouts st1 ++ [((now st1 + token_timeout_ms)%Z, app)])
              st1 in
          (Normal token, st2)
      end
  end.

Definition has (connectionKey : string) (st : state) : bool :=
  bool_decide (is_Some (connections st !! connectionKey)).

Definition get (connectionKey : string) (st : state) : option nat :=
  connections st !! connectionKey.

Definition set (connectionKey : string) (k : nat) (st : state) : state :=
  set_connections (<[connectionKey := k]> (connections st)) st.

Definition remove (connectionKey : string) (st : state) : state :=
  set_connections (delete connectionKey (connections st)) st.

Definition isAuthInProgress (app : string) (st : state) : bool :=
  bool_decide (app ∈ authInProgress st).

Definition setAuthInProgress (app : string) (inProgress : bool)
    (st : state) : state :=
  if inProgress
  then set_authInProgress ({[app]} ∪ authInProgress st) st
  else set_authInProgress (authInProgress st ∖ {[app]}) st.

End connectionManager.

Definition buildRealtimeUrl (app : string) (st : state) : string :=
  "wss://" +:+ app +:+ "." +:+ host (cfg st) +:+ "/ws".

(** The state of the promise returned by an [async] call when the running
    code returns to its caller. *)
Inductive promise :=
  | Fulfilled (k : nat)
  | Rejected
  | Awaiting.

(** An [async] body that ran to its end without suspending has settled its
    promise: fulfilled on [return], rejected on [throw]. *)
Definition settled (c : completion nat) : promise :=
  match c with
  | Normal k => Fulfilled k
  | Throw => Rejected
  end.

(** The tail of [getConnection]: [new WebSocket(...)], registered under the
    key.  The constructor throws on a URL it does not accept; nothing is
    made or registered then.  The new socket is the next index of
    [sockets]. *)
Definition getConnection_open (app key : string) (token : json)
    (st : state) : completion nat * state :=
  if websocketAccepts (cfg st) (buildRealtimeUrl app st) token then
    let k := length (sockets st) in
    let w := {| readyState := CONNECTING; ws_url := buildRealtimeUrl app st;
                ws_token := token; listeners := None |} in
    (Normal k, connectionManager.set key k (set_sockets (sockets st ++ [w]) st))
  else (Throw, st).

(** The path of [getConnection] that asks for a token: the flag is set and
    the request leaves. *)
Definition getConnection_refresh (app : string) (st : state)
  : promise * state :=
  (Awaiting,
   connectionManager.refreshToken app
     (connectionManager.setAuthInProgress app true st)).

(** [getConnection] up to its first suspension. *)
Definition getConnection (app key : string) (st : state) : promise * state :=
  if connectionManager.isAuthInProgress app st then (Rejected, st)
  else if connectionManager.has key st then
    match connectionManager.get key st with
    | Some k => (Fulfilled k, st)
    | None => (Rejected, st)
    end
  else
    match connectionManager.token app st with
    | Some token =>
        if truthy token then
          let '(c, st1) := getConnection_open app key token st in
          (settled c, st1)
        else getConnection_refresh app st
    | None => getConnection_refresh app st
    end.

(** [getConnection] after [await connectionManager.refreshToken(app)]. *)
Definition getConnection_resume (app key : string) (answer : option json)
    (st : state) : promise * state :=
  match connectionManager.refreshToken_resume app answer st with
  | (Throw, st1) => (Rejected, st1)
  | (Normal token, st1) =>
      let st2 := connectionManager.setAuthInProgress app false st1 in
      let '(c, st3) := getConnection_open app key token st2 in
      (settled c, st3)
  end.

(** ** The session returned by [connect] *)

Definition NORMAL_CLOSURE : Z := 1000.
Definition GOING_AWAY : Z := 1001.

(** [ws && ws.readyState === WebSocket.OPEN], giving the socket. *)
Definition ws_open (s : session) (st : state) : option nat :=
  match ws s with
  | Some k =>
      match sockets st !! k with
      | Some w => if decide (readyState w = OPEN) then Some k else None
      | None => None
      end
  | None => None
  end.

(** *** Promise callbacks *)

(** The callbacks of [getConnection(...).then(f).catch(g)] are not run by
    the code that settles the promise: they are queued, and run once the
    running code has returned to the event loop, oldest first.  A
    [microtask] is one queued callback of the session [sid]. *)
Inductive microtask :=
  (** [f], on the connection [k] the promise was fulfilled with *)
  | MtThen (sid k : nat)
  (** the rejection passing through [then(f)], which has no handler for it *)
  | MtRejected (sid : nat)
  (** [g] *)
  | MtCatch (sid : nat).

(** What a promise that is settled when [then] is called on it queues. *)
Definition reactions (sid : nat) (p : promise) : list microtask :=
  match p with
  | Fulfilled k => [MtThen sid k]
  | Rejected => [MtRejected sid]
  | Awaiting => []
  end.

(** The [then] callback of [reconnect]: [ws = connection] and the four
    listeners of the socket are assigned. *)
Definition reconnect_then (sid k : nat) (st : state) : state :=
  upd_socket k (with_listeners (Some sid))
    (upd_session sid (with_ws (Some k)) st).

(** The [catch] callback of [reconnect]. *)
Definition reconnect_catch (sid : nat) (st : state) : state :=
  emit (OnError sid {| message := "Error opening connection";
                       status := 500 |}) st.

(** [reconnect].  A function of the session returns the state it leaves
    and the callbacks it has queued. *)
Definition reconnect (sid : nat) (st : state) : state * list microtask :=
  match sessions st !! sid with
  | None => (st, [])
  | Some s =>
      match ws_open s st with
      | Some _ => (st, [])
      | None =>
          if connectionManager.isAuthInProgress (app s) st then (st, [])
          else
            match getConnection (app s) (connectionKey s) st with
            | (Awaiting, st1) =>
                (set_inflight
                   (inflight st1 ++
                      [{| rq_app := app s; rq_key := connectionKey s;
                          rq_session := sid |}]) st1, [])
            | (p, st1) => (st1, reactions sid p)
            end
      end
  end.

Definition _send (sid : nat) (input : json) (st : state)
  : state * list microtask :=
  match sessions st !! sid with
  | None => (st, [])
  | Some s =>
      let '(requestId, st1) := randomUUID st in
      match ws_open s st1 with
      | Some k => (emit (WsSend k requestId input) st1, [])
      | None =>
          let st2 := upd_session sid (with_pendingMessage (Some input)) st1 in
          if reconnecting s then (st2, [])
          else reconnect sid (upd_session sid (with_reconnecting true) st2)
      end
  end.

(** Modelled from the spec: [throttle], imported from [./utils], whose
    source is not at hand.  It is the trailing-edge throttle of the spec: a
    call outside a window opens one, lasting the interval, and records its
    arguments; a call inside the window replaces the recorded arguments. *)
Definition throttle_call (sid : nat) (input : json) (st : state)
  : state * list microtask :=
  match sessions st !! sid with
  | None => (st, [])
  | Some s =>
      match window s with
      | None =>
          (upd_session sid
             (with_window (Some ((now st + throttleInterval s)%Z, input))) st,
           [])
      | Some (deadline, _) =>
          (upd_session sid (with_window (Some (deadline, input))) st, [])
      end
  end.

(** Modelled from the spec: the timer of [throttle], imported from
    [./utils].  Once the window has elapsed the wrapped function is called
    with the recorded arguments. *)
Definition throttle_elapsed (sid : nat) (st : state)
  : state * list microtask :=
  match sessions st !! sid with
  | None => (st, [])
  | Some s =>
      match window s with
      | Some (deadline, input) =>
          if (deadline <=? now st)%Z
          then _send sid input (upd_session sid (with_window None) st)
          else (st, [])
      | None => (st, [])
      end
  end.

(** [send = throttleInterval > 0 ? throttle(_send, throttleInterval) : _send] *)
Definition send (sid : nat) (input : json) (st : state)
  : state * list microtask :=
  match sessions st !! sid with
  | None => (st, [])
  | Some s =>
      if (0 <? throttleInterval s)%Z then throttle_call sid input st
      else _send sid input st
  end.

(** *** Socket listeners of session [sid] *)

Definition onopen (sid : nat) (st : state) : state * list microtask :=
  let st1 := upd_session sid (with_reconnecting false) st in
  match sessions st1 !! sid with
  | None => (st1, [])
  | Some s =>
      match pendingMessage s with
      | Some m =>
          if truthy m
          then
            let '(st2, q) := send sid m st1 in
            (upd_session sid (with_pendingMessage None) st2, q)
          else (st1, [])
      | None => (st1, [])
      end
  end.

Definition onclose (sid : nat) (code : Z) (reason : string) (st : state)
  : state :=
  match sessions st !! sid with
  | None => st
  | Some s =>
      let st1 := connectionManager.remove (connectionKey s) st in
      let st2 :=
        if negb (code =? NORMAL_CLOSURE)%Z
        then emit (OnError sid
                     {| message := "Error closing the connection: " +:+ reason;
                        status := code |}) st1
        else st1 in
      upd_session sid (with_ws None) st2
  end.

Definition onerror (sid : nat) (st : state) : state :=
  match sessions st !! sid with
  | None => st
  | Some s =>
      let st1 := connectionManager.expireToken (app s) st in
      let st2 := connectionManager.remove (connectionKey s) st1 in
      let st3 := upd_session sid (with_ws None) st2 in
      emit (OnError sid {| message := "Unknown error"; status := 500 |}) st3
  end.

(** [parsed] is [JSON.parse(event.data)], [None] when it throws.  An
    exception ends the listener with nothing done. *)
Definition onmessage (sid : nat) (parsed : option json) (st : state)
  : state :=
  match parsed with
  | None => st
  | Some data =>
      match get_prop data "status", get_prop data "type" with
      | Normal st_, Normal ty =>
          if negb (is_string st_ "error") && negb (is_string ty "x-fal-message")
          then emit (OnResult sid data) st
          else st
      | _, _ => st
      end
  end.

(** [close()] of the returned connection.  [ws.close] on a socket that is
    already closed changes nothing on the socket; the call is logged. *)
Definition close (sid : nat) (st : state) : state :=
  match sessions st !! sid with
  | None => st
  | Some s =>
      match ws s with
      | Some k =>
          match sockets st !! k with
          | Some w =>
              if decide (readyState w = CLOSED)
              then emit (WsClose k GOING_AWAY
                           "Client manually closed the connection.") st
              else st
          | None => st
          end
      | None => st
      end
  end.

(** *** [connect] *)

(** The optional fields of the handler; [onResult] and [onError] are the
    targets of the [OnResult] and [OnError] effects. *)
Record handler := {
  h_connectionKey : option string;
  h_clientOnly : option bool;
  h_throttleInterval : option Z;
}.

Inductive connection :=
  | NoOpConnection
  | Connection (sid : nat).

Definition connect (app : string) (h : handler) (st : state)
  : connection * state :=
  let clientOnly :=
    default (isReact (cfg st) && negb (isBrowser (cfg st))) (h_clientOnly h) in
  let '(key, st1) :=
    match h_connectionKey h with
    | Some key => (key, st)
    | None => randomUUID st
    end in
  let interval := default 64%Z (h_throttleInterval h) in
  if clientOnly && negb (hasWindow (cfg st1)) then (NoOpConnection, st1)
  else
    (Connection (length (sessions st1)),
     set_sessions
       (sessions st1 ++
          [{| app := app; connectionKey := key; throttleInterval := interval;
              pendingMessage := None; reconnecting := false; ws := None;
              window := None |}]) st1).

Definition connection_send (c : connection) (input : json) (st : state)
  : state * list microtask :=
  match c with
  | NoOpConnection => (st, [])
  | Connection sid => send sid input st
  end.

Definition connection_close (c : connection) (st : state) : state :=
  match c with
  | NoOpConnection => st
  | Connection sid => close sid st
  end.

(** ** The event loop *)

(** A call made by the application. *)
Inductive call :=
  | CallConnect (app : string) (h : handler)
  | CallSend (c : connection) (input : json)
  | CallClose (c : connection).

Inductive event :=
  | EvConnect (app : string) (h : handler)
  | EvSend (c : connection) (input : json)
  | EvClose (c : connection)
  (** the application makes the calls [cs] one after the other without
      returning to the event loop in between *)
  | EvCalls (cs : list call)
  (** the [i]-th outstanding token request settles *)
  | EvTokenResponse (i : nat) (answer : option json)
  | EvSocketOpen (k : nat)
  (** socket [k] closes; [failed] when the connection was failed, in which
      case an error event is fired before the close event *)
  | EvSocketClose (k : nat) (failed : bool) (code : Z) (reason : string)
  | EvSocketMessage (k : nat) (parsed : option json)
  | EvThrottle (sid : nat)
  (** the [i]-th pending token expiry timer fires *)
  | EvTimeout (i : nat)
  | EvTime (dt : Z).

Definition run_call (c : call) (st : state) : state * list microtask :=
  match c with
  | CallConnect app h => ((connect app h st).2, [])
  | CallSend c input => connection_send c input st
  | CallClose c => (connection_close c st, [])
  end.

(** The calls of one synchronous block: each runs on the state the one
    before left; what they queue adds up, in order. *)
Fixpoint run_calls (cs : list call) (st : state) : state * list microtask :=
  match cs with
  | [] => (st, [])
  | c :: rest =>
      let '(st1, q1) := run_call c st in
      let '(st2, q2) := run_calls rest st1 in
      (st2, q1 ++ q2)
  end.

Definition dispatch (k : nat) (f : nat → state → state) (st : state)
  : state :=
  match sockets st !! k with
  | Some w =>
      match listeners w with
      | Some sid => f sid st
      | None => st
      end
  | None => st
  end.

(** The answer to a token request: the suspended [getConnection] runs to
    its end and settles its promise, on which [reconnect] has chained its
    callbacks. *)
Definition token_response (i : nat) (answer : option json) (st : state)
  : state * list microtask :=
  match inflight st !! i with
  | None => (st, [])
  | Some r =>
      let st1 := set_inflight (delete i (inflight st)) st in
      let '(p, st2) := getConnection_resume (rq_app r) (rq_key r) answer st1 in
      (st2, reactions (rq_session r) p)
  end.

Definition socket_open (k : nat) (st : state) : state * list microtask :=
  match sockets st !! k with
  | Some w =>
      if decide (readyState w = CONNECTING)
      then
        let st1 := upd_socket k (with_readyState OPEN) st in
        match listeners w with
        | Some sid => onopen sid st1
        | None => (st1, [])
        end
      else (st, [])
  | None => (st, [])
  end.

Definition socket_close (k : nat) (failed : bool) (code : Z)
    (reason : string) (st : state) : state :=
  match sockets st !! k with
  | Some w =>
      if decide (readyState w = CLOSED) then st
      else
        let st1 := upd_socket k (with_readyState CLOSED) st in
        let st2 := if failed then dispatch k onerror st1 else st1 in
        dispatch k (λ sid, onclose sid code reason) st2
  | None => st
  end.

Definition socket_message (k : nat) (parsed : option json) (st : state)
  : state :=
  match sockets st !! k with
  | Some w =>
      if decide (readyState w = OPEN)
      then dispatch k (λ sid, onmessage sid parsed) st
      else st
  | None => st
  end.

Definition token_timeout (i : nat) (st : state) : state :=
  match timeouts st !! i with
  | Some (due, app) =>
      if (due <=? now st)%Z
      then set_tokens (delete app (tokens st))
             (set_timeouts (delete i (timeouts st)) st)
      else st
  | None => st
  end.

(** The code a task runs before it returns to the event loop, with the
    callbacks it has queued. *)
Definition handle (e : event) (st : state) : state * list microtask :=
  match e with
  | EvConnect app h => ((connect app h st).2, [])
  | EvSend c input => connection_send c input st
  | EvClose c => (connection_close c st, [])
  | EvCalls cs => run_calls cs st
  | EvTokenResponse i answer => token_response i answer st
  | EvSocketOpen k => socket_open k st
  | EvSocketClose k failed code reason =>
      (socket_close k failed code reason st, [])
  | EvSocketMessage k parsed => (socket_message k parsed st, [])
  | EvThrottle sid => throttle_elapsed sid st
  | EvTimeout i => (token_timeout i st, [])
  | EvTime dt =>
      (if (0 <=? dt)%Z then set_now (now st + dt)%Z st else st, [])
  end.

(** One queued callback.  A rejection that passes through [then(f)] rejects
    the promise [then] returned, which queues the [catch] callback. *)
Definition run_microtask (t : microtask) (st : state)
  : state * list microtask :=
  match t with
  | MtThen sid k => (reconnect_then sid k st, [])
  | MtRejected sid => (st, [MtCatch sid])
  | MtCatch sid => (reconnect_catch sid st, [])
  end.

(** The callbacks [q] run oldest first; what they queue in turn is
    returned, in order. *)
Fixpoint run_queue (q : list microtask) (st : state)
  : state * list microtask :=
  match q with
  | [] => (st, [])
  | t :: rest =>
      let '(st1, q1) := run_microtask t st in
      let '(st2, q2) := run_queue rest st1 in
      (st2, q1 ++ q2)
  end.

(** The end of a task: the queue is run until it is empty.  A callback
    queued by a callback goes to the end of the queue, so the queue is run
    in rounds; the callbacks of this client queue at most [catch]
    callbacks, which queue nothing, so the second round empties it
    ([run_queue_settles]). *)
Definition drain (r : state * list microtask) : state :=
  let '(st1, q1) := run_queue r.2 r.1 in
  (run_queue q1 st1).1.

Definition step (e : event) (st : state) : state :=
  drain (handle e st).

Definition run (evs : list event) (st : state) : state :=
  foldl (λ s e, step e s) st evs.

(** ** Observations *)

(** The calls made to the handler's [onError], oldest first. *)
Definition onError_calls (l : list effect) : list (nat * ApiError) :=
  omap (λ e, match e with OnError sid err => Some (sid, err) | _ => None end) l.

(** The variable [ws] of session [sid]. *)
Definition session_ws (sid : nat) (st : state) : option nat :=
  s ← sessions st !! sid; ws s.

(** The variable [pendingMessage] of session [sid]. *)
Definition session_pending (sid : nat) (st : state) : option json :=
  s ← sessions st !! sid; pendingMessage s.

(** The variable [reconnecting] of session [sid]. *)
Definition session_reconnecting (sid : nat) (st : state) : option bool :=
  reconnecting <$> sessions st !! sid.

(** The property [data.k] holds the string [lit]. *)
Definition carries (data : json) (k lit : string) : Prop :=
  get_prop data k = Normal (Some (JStr lit)).

(** The requests of [l] that were issued for [a]. *)
Definition requests_for (a : string) (l : list token_request)
  : list token_request :=
  filter (λ r, rq_app r = a) l.

(** The entries of the token store held for [a]. *)
Definition tokens_for (a : string) (m : gmap string json)
  : list (string * json) :=
  filter (λ kv, kv.1 = a) (map_to_list m).

(** [s] contains no ['-']. *)
Definition no_dash (s : string) : Prop :=
  ∀ p q, s ≠ p +:+ "-" +:+ q.

(** The spec's reading of the allowed application: the identifier with
    everything up to and including its first ['-'] removed, and the empty
    string when it has none. *)
Fixpoint after_first_dash (s : string) : string :=
  match s with
  | EmptyString => EmptyString
  | String c r => if Ascii.eqb c "-" then r else after_first_dash r
  end.

(** The open socket of session [sid], if any. *)
Definition session_open (sid : nat) (st : state) : option nat :=
  s ← sessions st !! sid; ws_open s st.


(** The frames written for the payloads [ms] on socket [k], the first one
    carrying the [n]-th identifier. *)
Fixpoint sent_frames (k n : nat) (ms : list json) : list effect :=
  match ms with
  | [] => []
  | m :: rest => WsSend k ("uuid-" +:+ pretty n) m :: sent_frames k (S n) rest
  end.

(** [ms] sent one after the other through the connection of session [sid] *)
Definition sends (sid : nat) (ms : list json) : list event :=
  EvSend (Connection sid) <$> ms.

(** No two outstanding requests are for the same application, and every
    outstanding request has the flag of its application set. *)
Definition refresh_inv (st : state) : Prop :=
  NoDup (rq_app <$> inflight st)
  ∧ ∀ r, r ∈ inflight st → rq_app r ∈ authInProgress st.

(** ** An attempt under way *)


(** The calls [send(m)] for the messages [ms], made through [c] one after
    the other in one task. *)
Definition send_block (c : connection) (ms : list json) : event :=
  EvCalls (CallSend c <$> ms).





(** ** Example states *)

(** A configuration and payloads for examples. *)
Definition demo_config : config :=
  {| host := "gateway.alpha.fal.ai"; restApiUrl := "rest.alpha.fal.ai";
     isReact := false; isBrowser := true; hasWindow := true;
     websocketAccepts := λ _ _, true |}.

Definition demo_handler (key : string) (interval : option Z) : handler :=
  {| h_connectionKey := Some key; h_clientOnly := None;
     h_throttleInterval := interval |}.

Definition prompt (p : string) : json := JObj [("prompt", JStr p)].

(** A session on application ["1-app"] under key ["K"], unthrottled, whose
    socket has opened and delivered the first message. *)
Definition demo_open : state :=
  run [EvConnect "1-app" (demo_handler "K" (Some 0%Z));
       EvSend (Connection 0) (prompt "a");
       EvTokenResponse 0 (Some (JStr "tok"));
       EvSocketOpen 0]
      (init demo_config).

(** Two sessions share key ["K"]: the second took over the listeners of
    the socket, so when the socket closes the first keeps its [ws]. *)
Definition demo_closed : state :=
  run [EvConnect "1-app" (demo_handler "K" (Some 0%Z));
       EvConnect "1-app" (demo_handler "K" (Some 0%Z));
       EvSend (Connection 0) (prompt "a");
       EvTokenResponse 0 (Some (JStr "tok"));
       EvSend (Connection 1) (prompt "b");
       EvSocketClose 0 false 1000 ""]
      (init demo_config).

(** Session 0 (key ["KB"]) starts a token refresh for ["1-app"]; session 1
    (key ["K"]) sends while that refresh is in progress, so its attempt is
    abandoned; then the refresh completes. *)
Definition demo_aborted : state :=
  run [EvConnect "1-app" (demo_handler "KB" (Some 0%Z));
       EvConnect "1-app" (demo_handler "K" (Some 0%Z));
       EvSend (Connection 0) (prompt "a");
       EvSend (Connection 1) (prompt "m1");
       EvTokenResponse 0 (Some (JStr "tok"))]
      (init demo_config).

(** The socket of a session fails before it opens. *)
Definition demo_failed_open : state :=
  run [EvConnect "1-app" (demo_handler "K" (Some 0%Z));
       EvSend (Connection 0) (prompt "m1");
       EvTokenResponse 0 (Some (JStr "tok"));
       EvSocketClose 0 true 1006 ""]
      (init demo_config).

(** A session has started a refresh: its token request is outstanding. *)
Definition demo_refresh_started : state :=
  run [EvConnect "1-app" (demo_handler "K" (Some 0%Z));
       EvSend (Connection 0) (prompt "a")]
      (init demo_config).

(** The default interval: a session connected without [throttleInterval],
    its socket open and its throttle idle. *)
Definition demo_throttled : state :=
  run [EvConnect "1-app" (demo_handler "K" None);
       EvSend (Connection 0) (prompt "a");
       EvTime 64; EvThrottle 0;
       EvTokenResponse 0 (Some (JStr "tok"));
       EvSocketOpen 0;
       EvTime 64; EvThrottle 0]
      (init demo_config).

(** ** The registry and the sockets *)

(** The connection key of session [sid]. *)
Definition session_key (sid : nat) (st : state) : option string :=
  connectionKey <$> sessions st !! sid.

(** Every key of the registry names a socket that exists and is not closed,
    whose listeners belong to a session connected under that key; and every
    outstanding token request was made for the key of its session. *)
Definition registry_inv (st : state) : Prop :=
  (∀ K k, connections st !! K = Some k →
     ∃ w sid, sockets st !! k = Some w ∧ readyState w ≠ CLOSED
              ∧ listeners w = Some sid ∧ session_key sid st = Some K)
  ∧ (∀ r, r ∈ inflight st → session_key (rq_session r) st = Some (rq_key r)).

(** The same within a task, when the callbacks [q] are queued and have not
    run yet: the listeners of a registered socket belong to a session of
    its key, or a [then] callback that will assign them is queued; a queued
    [then] callback carries the socket registered under the key of its
    session; and no socket is registered under two keys. *)
Definition registry_pending (st : state) (q : list microtask) : Prop :=
  (∀ K k, connections st !! K = Some k →
     ∃ w, sockets st !! k = Some w ∧ readyState w ≠ CLOSED
          ∧ ((∃ sid, listeners w = Some sid ∧ session_key sid st = Some K)
             ∨ (∃ sid, MtThen sid k ∈ q)))
  ∧ (∀ sid k, MtThen sid k ∈ q →
       ∃ K, session_key sid st = Some K ∧ connections st !! K = Some k)
  ∧ (∀ K1 K2 k,
       connections st !! K1 = Some k → connections st !! K2 = Some k →
       K1 = K2)
  ∧ (∀ r, r ∈ inflight st → session_key (rq_session r) st = Some (rq_key r)).

(** An event that goes through the inert connection. *)
Definition inert_event (e : event) : Prop :=
  match e with
  | EvSend NoOpConnection _ | EvClose NoOpConnection => True
  | _ => False
  end.

(** Two sessions under key ["K"]; the first has acquired the socket, which
    is open, and the second has not sent yet. *)
Definition demo_shared : state :=
  run [EvConnect "1-app" (demo_handler "K" (Some 0%Z));
       EvConnect "1-app" (demo_handler "K" (Some 0%Z));
       EvSend (Connection 0) (prompt "a");
       EvTokenResponse 0 (Some (JStr "tok"));
       EvSocketOpen 0]
      (init demo_config).

(** After the first session has its socket open, a second session connects
    to the same application under another key. *)
Definition demo_second : state :=
  run [EvConnect "1-app" (demo_handler "K" (Some 0%Z));
       EvSend (Connection 0) (prompt "a");
       EvTokenResponse 0 (Some (JStr "tok"));
       EvSocketOpen 0;
       EvConnect "1-app" (demo_handler "K2" (Some 0%Z))]
      (init demo_config).

(** A session whose only message so far is the number 0; its socket has
    been made and is connecting. *)
Definition demo_falsy : state :=
  run [EvConnect "1-app" (demo_handler "K" (Some 0%Z));
       EvSend (Connection 0) (JNum 0);
       EvTokenResponse 0 (Some (JStr "tok"))]
      (init demo_config).

(** Two sessions under the same key ["K"] for two applications: both have
    asked for a token, and the token of the first has arrived. *)
Definition demo_two_apps : state :=
  run [EvConnect "1-app" (demo_handler "K" (Some 0%Z));
       EvConnect "2-app" (demo_handler "K" (Some 0%Z));
       EvSend (Connection 0) (prompt "a");
       EvSend (Connection 1) (prompt "b");
       EvTokenResponse 0 (Some (JStr "tok1"))]
      (init demo_config).





(** [s] contains a space. *)
Fixpoint has_space (s : string) : bool :=
  match s with
  | EmptyString => false
  | String c r => Ascii.eqb c " " || has_space r
  end.

(** A configuration whose [WebSocket] refuses a URL with a space in it,
    and a session for an application whose identifier has one. *)
Definition demo_strict_config : config :=
  {| host := "gateway.alpha.fal.ai"; restApiUrl := "rest.alpha.fal.ai";
     isReact := false; isBrowser := true; hasWindow := true;
     websocketAccepts := λ url _, negb (has_space url) |}.

Definition demo_refused : state :=
  (connect "1-a b" (demo_handler "K" (Some 0%Z)) (init demo_strict_config)).2.

(** * Properties *)

(** ** The end of a task *)

Lemma drain_nil st : drain (st, []) = st.
Proof. reflexivity. Qed.

Lemma drain_then sid k st :
  drain (st, [MtThen sid k]) = reconnect_then sid k st.
Proof. reflexivity. Qed.

Lemma drain_rejected sid st :
  drain (st, [MtRejected sid]) = reconnect_catch sid st.
Proof. reflexivity. Qed.

Lemma run_queue_app q1 q2 st :
  run_queue (q1 ++ q2) st
  = let '(st1, r1) := run_queue q1 st in
    let '(st2, r2) := run_queue q2 st1 in
    (st2, r1 ++ r2).
Proof.
  revert st. induction q1 as [|t q1 IH]; intros st; simpl.
  - by destruct (run_queue q2 st).
  - destruct (run_microtask t st) as [st1 r1]. rewrite IH.
    destruct (run_queue q1 st1) as [st2 r2].
    destruct (run_queue q2 st2) as [st3 r3]. by rewrite app_assoc.
Qed.

(** What a round of callbacks queues are [catch] callbacks only. *)
Lemma run_queue_queues q st :
  Forall (λ t, ∃ sid, t = MtCatch sid) (run_queue q st).2.
Proof.
  revert st. induction q as [|t q IH]; intros st; simpl; [constructor|].
  destruct (run_microtask t st) as [st1 r1] eqn:E1.
  specialize (IH st1). destruct (run_queue q st1) as [st2 r2]. simpl in *.
  apply Forall_app. split; [|done].
  destruct t; simpl in E1; injection E1 as <- <-; repeat constructor.
  by eexists.
Qed.

(** [drain] leaves no callback behind: the second round queues nothing. *)
Lemma run_queue_settles q st :
  let '(st1, q1) := run_queue q st in (run_queue q1 st1).2 = [].
Proof.
  pose proof (run_queue_queues q st) as H.
  destruct (run_queue q st) as [st1 q1]. simpl in H.
  revert st1. induction H as [|t q1 [sid ->] _ IH]; intros st1; [done|].
  simpl. specialize (IH (reconnect_catch sid st1)).
  by destruct (run_queue q1 (reconnect_catch sid st1)); simpl in *.
Qed.

(** A task made of one call is the block made of that call. *)
Lemma step_single_call c st :
  step (EvCalls [c]) st
  = match c with
    | CallConnect a h => step (EvConnect a h) st
    | CallSend c m => step (EvSend c m) st
    | CallClose c => step (EvClose c) st
    end.
Proof.
  unfold step. simpl.
  destruct c as [a h|c m|c]; simpl; try reflexivity.
  destruct (connection_send c m st) as [st1 q1]. by rewrite app_nil_r.
Qed.

(** ** Inbound messages *)

Lemma is_string_true v lit : is_string v lit = true ↔ v = Some (JStr lit).
Proof.
  destruct v as [[]|]; simpl; try (split; [discriminate|congruence]).
  rewrite String.eqb_eq. split; congruence.
Qed.

Lemma get_prop_normal data k : data ≠ JNull → ∃ v, get_prop data k = Normal v.
Proof. destruct data; simpl; eauto. congruence. Qed.

(** C8.  A parsed message that carries [status == "error"] or the control
    type ["x-fal-message"] leaves the state as it was: neither [onResult]
    nor [onError] is called.  Every other parsed message of the wire
    envelope (any JSON value but [null]) is handed to [onResult] unchanged,
    and that is the only effect. *)
Theorem C8_onmessage_filter (sid : nat) (data : json) (st : state) :
  (carries data "status" "error" ∨ carries data "type" "x-fal-message" →
     onmessage sid (Some data) st = st) ∧
  (data ≠ JNull →
   ¬ (carries data "status" "error" ∨ carries data "type" "x-fal-message") →
     onmessage sid (Some data) st = emit (OnResult sid data) st).
Proof.
  split.
  - intros [H|H]; unfold carries in H; unfold onmessage.
    + rewrite H. simpl. by destruct (get_prop data "type").
    + rewrite H. destruct (get_prop data "status"); [|done].
      simpl. by rewrite andb_false_r.
  - intros Hnn Hno. unfold onmessage.
    destruct (get_prop_normal data "status" Hnn) as [v1 H1].
    destruct (get_prop_normal data "type" Hnn) as [v2 H2].
    rewrite H1, H2.
    destruct (is_string v1 "error") eqn:E1.
    { exfalso. apply Hno. left. apply is_string_true in E1. by subst. }
    destruct (is_string v2 "x-fal-message") eqn:E2.
    { exfalso. apply Hno. right. apply is_string_true in E2. by subst. }
    done.
Qed.

Lemma C8_onmessage_filter_witness :
  onmessage 0
    (Some (JObj [("status", JStr "error"); ("detail", JStr "bad input")]))
    (init demo_config) = init demo_config
  ∧ onmessage 0 (Some (JObj [("images", JArr [])])) (init demo_config)
    = emit (OnResult 0 (JObj [("images", JArr [])])) (init demo_config).
Proof.
  split.
  - apply C8_onmessage_filter. left. reflexivity.
  - apply C8_onmessage_filter; [discriminate|].
    intros [H|H]; discriminate H.
Defined.

(** ** Socket closure *)

(** C2, as the code has it.  [onclose] removes the registry entry of the
    session's connection key and clears [ws].  Only close code 1000 is an
    expected closure: it calls nothing.  Every other code, 1001 included,
    makes exactly one [onError] call, with the close code as status and the
    reason appended to the message. *)
Theorem C2_onclose (sid : nat) (s : session) (code : Z) (reason : string)
    (st : state) :
  sessions st !! sid = Some s →
  let st' := onclose sid code reason st in
  connections st' !! connectionKey s = None
  ∧ session_ws sid st' = None
  ∧ (code = 1000%Z → log st' = log st)
  ∧ (code ≠ 1000%Z →
       log st' = log st ++
         [OnError sid
            {| message := "Error closing the connection: " +:+ reason;
               status := code |}]).
Proof.
  intros Hs st'. subst st'. unfold onclose. rewrite Hs.
  unfold NORMAL_CLOSURE.
  destruct (code =? 1000)%Z eqn:E; simpl.
  - apply Z.eqb_eq in E. repeat split.
    + apply lookup_delete_eq.
    + unfold session_ws. simpl. rewrite list_lookup_alter_eq, Hs. done.
    + intros Hne. done.
  - apply Z.eqb_neq in E. repeat split.
    + apply lookup_delete_eq.
    + unfold session_ws. simpl. rewrite list_lookup_alter_eq, Hs. done.
    + intros He. done.
Qed.

Lemma C2_onclose_witness :
  let st' := onclose 0 1006 "timeout" demo_open in
  connections st' !! "K" = None
  ∧ session_ws 0 st' = None
  ∧ (1006%Z = 1000%Z → log st' = log demo_open)
  ∧ (1006%Z ≠ 1000%Z →
       log st' = log demo_open ++
         [OnError 0
            {| message := "Error closing the connection: " +:+ "timeout";
               status := 1006 |}]).
Proof.
  apply (C2_onclose 0
           {| app := "1-app"; connectionKey := "K"; throttleInterval := 0;
              pendingMessage := None; reconnecting := false; ws := Some 0;
              window := None |} 1006 "timeout" demo_open).
  reflexivity.
Defined.

(** C2, as the claim has it, fails: a socket that closes with code 1001
    does call [onError]. *)
Lemma C2_going_away_calls_onError :
  onError_calls (log demo_open) = []
  ∧ onError_calls
      (log (step (EvSocketClose 0 false 1001 "going away") demo_open))
    = [(0, {| message := "Error closing the connection: going away";
              status := 1001 |})].
Proof. split; reflexivity. Qed.

(** ** [close] *)

Lemma onError_calls_app l1 l2 :
  onError_calls (l1 ++ l2) = onError_calls l1 ++ onError_calls l2.
Proof. unfold onError_calls. apply omap_app. Qed.

Lemma close_cases sid st :
  close sid st = st
  ∨ ∃ k, close sid st
         = emit (WsClose k 1001 "Client manually closed the connection.") st.
Proof.
  unfold close.
  destruct (sessions st !! sid) as [s|]; [|by left].
  destruct (ws s) as [k|]; [|by left].
  destruct (sockets st !! k) as [w|]; [|by left].
  destruct (decide (readyState w = CLOSED)); [right; by exists k|by left].
Qed.

Lemma close_onError_calls sid st :
  onError_calls (log (close sid st)) = onError_calls (log st).
Proof.
  destruct (close_cases sid st) as [->|[k ->]]; [done|].
  simpl. rewrite onError_calls_app. simpl. by rewrite app_nil_r.
Qed.

(** C6.  [close] acts exactly when the session's [ws] is set and that
    socket is in state [CLOSED]: it then calls [ws.close] with code 1001
    and the client's reason, and nothing else changes; in every other case
    it does nothing.  However often [close] is called, no call to
    [onError] is added. *)
Theorem C6_close (sid : nat) (st : state) :
  (∀ s k w,
     sessions st !! sid = Some s → ws s = Some k →
     sockets st !! k = Some w → readyState w = CLOSED →
     close sid st
     = emit (WsClose k 1001 "Client manually closed the connection.") st)
  ∧ ((¬ ∃ s k w,
        sessions st !! sid = Some s ∧ ws s = Some k ∧
        sockets st !! k = Some w ∧ readyState w = CLOSED) →
     close sid st = st)
  ∧ (∀ n, onError_calls (log (Nat.iter n (close sid) st))
          = onError_calls (log st)).
Proof.
  repeat split.
  - intros s k w Hs Hk Hw Hc. unfold close. rewrite Hs, Hk, Hw.
    by rewrite decide_True.
  - intros Hno. unfold close.
    destruct (sessions st !! sid) as [s|] eqn:Hs; [|done].
    destruct (ws s) as [k|] eqn:Hk; [|done].
    destruct (sockets st !! k) as [w|] eqn:Hw; [|done].
    destruct (decide (readyState w = CLOSED)) as [Hc|]; [|done].
    exfalso. apply Hno. by exists s, k, w.
  - intros n. induction n as [|n IH]; [done|].
    simpl. by rewrite close_onError_calls.
Qed.

Lemma C6_close_witness :
  close 0 demo_closed
  = emit (WsClose 0 1001 "Client manually closed the connection.") demo_closed
  ∧ close 1 demo_closed = demo_closed
  ∧ onError_calls (log (Nat.iter 3 (close 0) demo_closed))
    = onError_calls (log demo_closed).
Proof.
  split; [|split].
  - apply (proj1 (C6_close 0 demo_closed)
             {| app := "1-app"; connectionKey := "K"; throttleInterval := 0;
                pendingMessage := Some (prompt "a"); reconnecting := true;
                ws := Some 0; window := None |}
             0
             {| readyState := CLOSED;
                ws_url := "wss://1-app.gateway.alpha.fal.ai/ws";
                ws_token := JStr "tok"; listeners := Some 1 |});
      reflexivity.
  - apply (proj1 (proj2 (C6_close 1 demo_closed))).
    intros (s & k & w & Hs & Hk & Hw & Hc).
    vm_compute in Hs. injection Hs as <-. discriminate Hk.
  - apply (proj2 (proj2 (C6_close 0 demo_closed))).
Defined.

(** ** The token store *)

(** C9.  [refreshToken] fails, storing nothing, when the token request
    fails.  When the request yields a token, the token is stored for the
    application, a timer that deletes it is set 108000 ms (90% of 120 s)
    after the time of storage, and the token is returned.  The timer does
    not fire earlier, and when it fires the token is gone. *)
Theorem C9_refreshToken (a : string) (st : state) :
  connectionManager.refreshToken_resume a None st = (Throw, st)
  ∧ ∀ answer token,
      getToken_resume answer = Normal token →
      ∃ st',
        connectionManager.refreshToken_resume a (Some answer) st
        = (Normal token, st')
        ∧ tokens st' = <[a := token]> (tokens st)
        ∧ timeouts st' = timeouts st ++ [((now st + 108000)%Z, a)]
        ∧ (∀ dt, (0 ≤ dt < 108000)%Z →
             step (EvTimeout (length (timeouts st))) (step (EvTime dt) st')
             = step (EvTime dt) st')
        ∧ tokens (step (EvTimeout (length (timeouts st)))
                    (step (EvTime 108000) st')) !! a = None.
Proof.
  split; [reflexivity|].
  intros answer token Hok.
  unfold connectionManager.refreshToken_resume. rewrite Hok.
  eexists. split; [reflexivity|]. simpl.
  change token_timeout_ms with 108000%Z.
  unfold step, drain. simpl.
  repeat split.
  - intros dt [Hlo Hhi]. unfold token_timeout.
    destruct (0 <=? dt)%Z eqn:E; [|lia]. simpl.
    rewrite lookup_app_r, Nat.sub_diag by done. simpl.
    destruct (now st + 108000 <=? now st + dt)%Z eqn:E2; [lia|done].
  - unfold token_timeout. simpl.
    rewrite lookup_app_r, Nat.sub_diag by done. simpl.
    rewrite Z.leb_refl. simpl. apply lookup_delete_eq.
Qed.

Lemma C9_refreshToken_witness :
  ∃ st',
    connectionManager.refreshToken_resume "1-app" (Some (JStr "tok"))
      (init demo_config)
    = (Normal (JStr "tok"), st')
    ∧ tokens st' = <["1-app" := JStr "tok"]> (tokens (init demo_config))
    ∧ timeouts st' = [(108000%Z, "1-app")].
Proof.
  destruct (proj2 (C9_refreshToken "1-app" (init demo_config))
              (JStr "tok") (JStr "tok") eq_refl)
    as (st' & H1 & H2 & H3 & _).
  exists st'. split; [exact H1|]. split; [exact H2|exact H3].
Defined.

(** ** The token request *)

Lemma split_not_nil sep s : split sep s ≠ [].
Proof.
  destruct s as [|c r]; simpl; [done|].
  destruct (Ascii.eqb c sep); [done|].
  by destruct (split sep r).
Qed.

Lemma join_split s : join "-" (split "-" s) = s.
Proof.
  induction s as [|c r IH]; [done|]. simpl.
  destruct (Ascii.eqb c "-") eqn:E.
  - apply Ascii.eqb_eq in E. subst c.
    destruct (split "-" r) as [|hd tl] eqn:Hr.
    { by apply split_not_nil in Hr. }
    simpl in *. by rewrite IH.
  - destruct (split "-" r) as [|hd tl] eqn:Hr.
    { by apply split_not_nil in Hr. }
    destruct tl; simpl in *; by rewrite <- IH.
Qed.

Lemma appAlias_after_first_dash s : appAlias s = after_first_dash s.
Proof.
  unfold appAlias. induction s as [|c r IH]; [done|]. simpl.
  destruct (Ascii.eqb c "-") eqn:E.
  - simpl. apply join_split.
  - destruct (split "-" r) as [|hd tl] eqn:Hr.
    { by apply split_not_nil in Hr. }
    exact IH.
Qed.

Lemma no_dash_tail c s : no_dash (String c s) → c ≠ "-"%char ∧ no_dash s.
Proof.
  intros Hn. split.
  - intros ->. by apply (Hn "" s).
  - intros p q ->. by apply (Hn (String c p) q).
Qed.

Lemma after_first_dash_cut pre rest :
  no_dash pre → after_first_dash (pre +:+ "-" +:+ rest) = rest.
Proof.
  induction pre as [|c pre IH]; intros Hn; [done|].
  apply no_dash_tail in Hn as [Hc Hn]. simpl.
  apply Ascii.eqb_neq in Hc. rewrite Hc. by apply IH.
Qed.

Lemma after_first_dash_none s : no_dash s → after_first_dash s = "".
Proof.
  induction s as [|c s IH]; intros Hn; [done|].
  apply no_dash_tail in Hn as [Hc Hn]. simpl.
  apply Ascii.eqb_neq in Hc. rewrite Hc. by apply IH.
Qed.

(** C10.  When [getConnection] has to fetch a token for an application, the
    request it posts to the token endpoint names one allowed application.
    It is not the identifier: for an identifier [pre-rest] with no ['-'] in
    [pre] it is [rest], and for an identifier without ['-'] it is the empty
    string. *)
Theorem C10_allowed_application (a key : string) (st : state) :
  connectionManager.isAuthInProgress a st = false →
  connectionManager.has key st = false →
  truthy_opt (connectionManager.token a st) = false →
  log (getConnection a key st).2
  = log st ++
      [DispatchRequest "POST"
         ("https://" +:+ restApiUrl (cfg st) +:+ "/tokens/")
         (JObj [("allowed_apps", JArr [JStr (after_first_dash a)]);
                ("token_expiration", JNum 120)])]
  ∧ (∀ pre rest,
       no_dash pre → a = pre +:+ "-" +:+ rest → after_first_dash a = rest)
  ∧ (no_dash a → after_first_dash a = "").
Proof.
  intros Hauth Hhas Htok. split; [|split].
  - unfold getConnection. rewrite Hauth, Hhas.
    rewrite <- appAlias_after_first_dash.
    destruct (connectionManager.token a st) as [t|]; simpl in Htok.
    + rewrite Htok. reflexivity.
    + reflexivity.
  - intros pre rest Hn ->. by apply after_first_dash_cut.
  - apply after_first_dash_none.
Qed.

Lemma C10_allowed_application_witness :
  log (getConnection "110602490-lcm-sd15-i2i" "realtime-demo"
         (init demo_config)).2
  = [DispatchRequest "POST" "https://rest.alpha.fal.ai/tokens/"
       (JObj [("allowed_apps", JArr [JStr "lcm-sd15-i2i"]);
              ("token_expiration", JNum 120)])].
Proof.
  apply (proj1 (C10_allowed_application "110602490-lcm-sd15-i2i"
                  "realtime-demo" (init demo_config)
                  eq_refl eq_refl eq_refl)).
Defined.

(** ** Retrying after an attempt that did not open a socket *)

(** A send by a session whose [reconnecting] is set and whose socket is not
    open only overwrites the pending message. *)
Lemma _send_while_reconnecting sid s input st :
  sessions st !! sid = Some s →
  reconnecting s = true →
  ws_open s st = None →
  _send sid input st
  = (upd_session sid (with_pendingMessage (Some input))
       (set_uuids (S (uuids st)) st), []).
Proof.
  intros Hs Hr Ho. unfold _send. rewrite Hs. simpl.
  change (ws_open s (set_uuids (S (uuids st)) st)) with (ws_open s st).
  by rewrite Ho, Hr.
Qed.

(** An attempt made while an authentication is in progress changes nothing:
    in particular [reconnecting], set by [_send] just before, stays set. *)
Lemma reconnect_auth_in_progress sid s st :
  sessions st !! sid = Some s →
  connectionManager.isAuthInProgress (app s) st = true →
  reconnect sid st = (st, []).
Proof.
  intros Hs Ha. unfold reconnect. rewrite Hs, Ha.
  by destruct (ws_open s st).
Qed.

(** C1 on the code.  After the abandoned attempt of session 1 no refresh is
    in progress and its socket is not open, yet its next send does not run
    the acquisition: nothing is registered under its key, no request and no
    socket is made, while [reconnect] itself would have opened a socket.
    The same holds after a socket that failed before opening. *)
Theorem C1_no_retry_after_aborted_attempt :
  let st := demo_aborted in
  let st' := step (EvSend (Connection 1) (prompt "m2")) st in
  authInProgress st = ∅
  ∧ session_ws 1 st = None
  ∧ session_reconnecting 1 st' = Some true
  ∧ session_pending 1 st' = Some (prompt "m2")
  ∧ connections st' !! "K" = None
  ∧ sockets st' = sockets st ∧ inflight st' = inflight st ∧ log st' = log st
  ∧ connections (reconnect 1 st).1 !! "K" = Some 1
  ∧ let ft := demo_failed_open in
    let ft' := step (EvSend (Connection 0) (prompt "m2")) ft in
    authInProgress ft = ∅
    ∧ session_ws 0 ft = None
    ∧ connections ft' !! "K" = None
    ∧ sockets ft' = sockets ft ∧ inflight ft' = inflight ft
    ∧ log ft' = log ft.
Proof. vm_compute. repeat split. Qed.

(** ** The in-progress flag around a token request *)

(** A failed token request leaves the flags as they are; a token clears
    the flag of the application it was requested for. *)
Lemma token_response_failure_flag i st :
  authInProgress (step (EvTokenResponse i None) st) = authInProgress st.
Proof.
  unfold step, handle, token_response. by destruct (inflight st !! i).
Qed.

Lemma token_response_success_flag i r v t st :
  inflight st !! i = Some r → getToken_resume v = Normal t →
  authInProgress (step (EvTokenResponse i (Some v)) st)
  = authInProgress st ∖ {[rq_app r]}.
Proof.
  intros Hr Hv. unfold step, handle, token_response. rewrite Hr.
  unfold getConnection_resume, connectionManager.refreshToken_resume.
  rewrite Hv. unfold getConnection_open. simpl.
  by destruct (websocketAccepts _ _ _).
Qed.

(** C3 on the code.  The flag is set while the request is outstanding and
    cleared when it succeeds; when the request fails no request is
    outstanding any more and the flag is still set. *)
Theorem C3_flag_after_failed_refresh :
  let st := demo_refresh_started in
  (length (inflight st) = 1
   ∧ connectionManager.isAuthInProgress "1-app" st = true)
  ∧ (let ok := step (EvTokenResponse 0 (Some (JStr "tok"))) st in
     inflight ok = []
     ∧ connectionManager.isAuthInProgress "1-app" ok = false)
  ∧ (let ko := step (EvTokenResponse 0 None) st in
     inflight ko = []
     ∧ connectionManager.isAuthInProgress "1-app" ko = true).
Proof. vm_compute. repeat split. Qed.

(** ** The pending message slot *)

Lemma lookup_upd_session sid f st :
  sessions (upd_session sid f st) !! sid = f <$> sessions st !! sid.
Proof. unfold upd_session. simpl. apply list_lookup_alter_eq. Qed.

Lemma lookup_upd_socket k f st :
  sockets (upd_socket k f st) !! k = f <$> sockets st !! k.
Proof. unfold upd_socket. simpl. apply list_lookup_alter_eq. Qed.

Lemma _send_open sid s k input st :
  sessions st !! sid = Some s →
  ws_open s st = Some k →
  _send sid input st
  = (emit (WsSend k ("uuid-" +:+ pretty (uuids st)) input)
       (set_uuids (S (uuids st)) st), []).
Proof.
  intros Hs Ho. unfold _send. rewrite Hs. simpl.
  change (ws_open s (set_uuids (S (uuids st)) st)) with (ws_open s st).
  by rewrite Ho.
Qed.

Lemma onopen_unthrottled sid s k w m st :
  sessions st !! sid = Some s →
  pendingMessage s = Some m → truthy m = true →
  ws s = Some k → sockets st !! k = Some w → readyState w = CONNECTING →
  listeners w = Some sid →
  (throttleInterval s ≤ 0)%Z →
  let st' := step (EvSocketOpen k) st in
  session_pending sid st' = None
  ∧ session_reconnecting sid st' = Some false
  ∧ log st' = log st ++ [WsSend k ("uuid-" +:+ pretty (uuids st)) m].
Proof.
  intros Hs Hp Ht Hk Hw Hc Hl Hi st'. subst st'. unfold step, handle.
  unfold socket_open. rewrite Hw, decide_True by done. rewrite Hl.
  unfold onopen. rewrite lookup_upd_session.
  change (sessions (upd_socket k (with_readyState OPEN) st)) with (sessions st).
  rewrite Hs. simpl. rewrite Hp, Ht.
  unfold send. rewrite lookup_upd_session.
  change (sessions (upd_socket k (with_readyState OPEN) st)) with (sessions st).
  rewrite Hs. simpl.
  destruct (0 <? throttleInterval s)%Z eqn:E; [lia|].
  erewrite _send_open.
  2:{ rewrite lookup_upd_session.
      change (sessions (upd_socket k (with_readyState OPEN) st))
        with (sessions st).
      rewrite Hs. reflexivity. }
  2:{ unfold ws_open. simpl. rewrite Hk.
      rewrite list_lookup_alter_eq, Hw. simpl. reflexivity. }
  rewrite drain_nil.
  repeat split.
  - unfold session_pending. rewrite lookup_upd_session. simpl. rewrite list_lookup_alter_eq, Hs. done.
  - unfold session_reconnecting. rewrite lookup_upd_session. simpl. rewrite list_lookup_alter_eq, Hs. done.
Qed.

Lemma getConnection_sessions a key st :
  sessions (getConnection a key st).2 = sessions st.
Proof.
  unfold getConnection.
  destruct (connectionManager.isAuthInProgress a st); [done|].
  destruct (connectionManager.has key st).
  { by destruct (connectionManager.get key st). }
  destruct (connectionManager.token a st) as [t|]; [|done].
  destruct (truthy t); [|done].
  unfold getConnection_open. by destruct (websocketAccepts _ _ _).
Qed.

Lemma pending_alter (f : session → session) sid i (l : list session) :
  (∀ s, pendingMessage (f s) = pendingMessage s) →
  (s ← alter f sid l !! i; pendingMessage s) = (s ← l !! i; pendingMessage s).
Proof.
  intros Hf. destruct (decide (sid = i)) as [->|Hne].
  - rewrite list_lookup_alter_eq. destruct (l !! i); simpl; [apply Hf|done].
  - by rewrite list_lookup_alter_ne.
Qed.

Lemma reconnect_pending sid i st :
  session_pending i (reconnect sid st).1 = session_pending i st.
Proof.
  unfold reconnect.
  destruct (sessions st !! sid) as [s|]; [|done].
  destruct (ws_open s st); [done|].
  destruct (connectionManager.isAuthInProgress (app s) st); [done|].
  pose proof (getConnection_sessions (app s) (connectionKey s) st) as Hg.
  destruct (getConnection (app s) (connectionKey s) st) as [[k| |] st1];
    simpl in Hg; unfold session_pending; simpl; by rewrite ?Hg.
Qed.

Lemma _send_not_open_pending sid input st :
  is_Some (sessions st !! sid) →
  session_open sid st = None →
  session_pending sid (_send sid input st).1 = Some input.
Proof.
  intros [s Hs] Ho. unfold session_open in Ho. rewrite Hs in Ho. simpl in Ho.
  unfold _send. rewrite Hs. simpl.
  change (ws_open s (set_uuids (S (uuids st)) st)) with (ws_open s st).
  rewrite Ho.
  destruct (reconnecting s).
  - unfold session_pending. simpl. rewrite list_lookup_alter_eq.
    simpl. by rewrite Hs.
  - rewrite reconnect_pending. unfold session_pending.
    rewrite lookup_upd_session, lookup_upd_session. simpl. by rewrite Hs.
Qed.


(** ** Throttled sends *)

Lemma upd_session_id sid s f st :
  sessions st !! sid = Some s → f s = s → upd_session sid f st = st.
Proof.
  intros Hs Hf. unfold upd_session.
  assert (alter f sid (sessions st) = sessions st) as ->.
  { apply list_eq. intros i. destruct (decide (sid = i)) as [->|Hne].
    - rewrite list_lookup_alter_eq, Hs. simpl. by rewrite Hf.
    - by rewrite list_lookup_alter_ne. }
  by destruct st.
Qed.

Lemma upd_session_window_twice sid a b st :
  upd_session sid (with_window a) (upd_session sid (with_window b) st)
  = upd_session sid (with_window a) st.
Proof.
  unfold upd_session, set_sessions. simpl. f_equal.
  apply list_eq. intros i. destruct (decide (sid = i)) as [->|Hne].
  - rewrite !list_lookup_alter_eq. by destruct (sessions st !! i).
  - by rewrite !list_lookup_alter_ne.
Qed.

Lemma send_throttled sid s input st :
  sessions st !! sid = Some s → (0 < throttleInterval s)%Z →
  send sid input st = throttle_call sid input st.
Proof.
  intros Hs Hi. unfold send. rewrite Hs.
  destruct (0 <? throttleInterval s)%Z eqn:E; [done|lia].
Qed.

Lemma send_unthrottled sid s input st :
  sessions st !! sid = Some s → (throttleInterval s ≤ 0)%Z →
  send sid input st = _send sid input st.
Proof.
  intros Hs Hi. unfold send. rewrite Hs.
  destruct (0 <? throttleInterval s)%Z eqn:E; [lia|done].
Qed.

Lemma default_last_cons (m0 m : json) ms :
  default m0 (last (m :: ms)) = default m (last ms).
Proof. rewrite last_cons. by destruct (last ms). Qed.

(** Calls inside a running window only replace the recorded arguments. *)
Lemma sends_in_window sid ms : ∀ s d m0 st,
  sessions st !! sid = Some s → (0 < throttleInterval s)%Z →
  window s = Some (d, m0) →
  run (sends sid ms) st
  = upd_session sid (with_window (Some (d, default m0 (last ms)))) st.
Proof.
  induction ms as [|m ms IH]; intros s d m0 st Hs Hi Hw.
  - simpl. symmetry. apply (upd_session_id sid s); [done|].
    destruct s; simpl in *. by rewrite Hw.
  - change (run (sends sid (m :: ms)) st)
      with (run (sends sid ms) (drain (send sid m st))).
    erewrite send_throttled by done.
    unfold throttle_call. rewrite Hs, Hw, drain_nil.
    erewrite (IH (with_window (Some (d, m)) s) d m); [| |done|done].
    + by rewrite upd_session_window_twice, default_last_cons.
    + rewrite lookup_upd_session, Hs. done.
Qed.

Lemma sends_open_window sid m ms s st :
  sessions st !! sid = Some s → (0 < throttleInterval s)%Z →
  window s = None →
  run (sends sid (m :: ms)) st
  = upd_session sid
      (with_window
         (Some ((now st + throttleInterval s)%Z, default m (last ms)))) st.
Proof.
  intros Hs Hi Hw.
  change (run (sends sid (m :: ms)) st)
    with (run (sends sid ms) (drain (send sid m st))).
  erewrite send_throttled by done.
  unfold throttle_call. rewrite Hs, Hw, drain_nil.
  erewrite (sends_in_window sid ms
              (with_window (Some ((now st + throttleInterval s)%Z, m)) s));
    [|by rewrite lookup_upd_session, Hs|done|done].
  by rewrite upd_session_window_twice.
Qed.

Lemma sends_unthrottled sid s k ms : ∀ st,
  sessions st !! sid = Some s → (throttleInterval s ≤ 0)%Z →
  ws_open s st = Some k →
  log (run (sends sid ms) st) = log st ++ sent_frames k (uuids st) ms.
Proof.
  induction ms as [|m ms IH]; intros st Hs Hi Ho.
  - simpl. by rewrite app_nil_r.
  - change (run (sends sid (m :: ms)) st)
      with (run (sends sid ms) (drain (send sid m st))).
    erewrite send_unthrottled, _send_open by done. rewrite drain_nil.
    rewrite IH; [|done..]. simpl. by rewrite <- app_assoc.
Qed.

Lemma run_app evs1 evs2 st : run (evs1 ++ evs2) st = run evs2 (run evs1 st).
Proof. apply foldl_app. Qed.

(** C7.  [connect] takes 64 ms as the interval when the handler gives none,
    and with a positive interval [send] is the throttled [_send].  For a
    session whose socket is open and whose throttle is idle, any number of
    calls made before the window elapses write nothing, and when the window
    has elapsed one frame is written, carrying the arguments of the last
    call.  With an interval of zero or less [send] is [_send] itself:
    every call writes its frame at once. *)
Theorem C7_throttled_send (sid : nat) (s : session) (st : state) :
  sessions st !! sid = Some s →
  (∀ a h st0 st1,
     h_throttleInterval h = None →
     connect a h st0 = (Connection sid, st1) →
     throttleInterval <$> sessions st1 !! sid = Some 64%Z)
  ∧ ((0 < throttleInterval s)%Z →
       ∀ input, send sid input st = throttle_call sid input st)
  ∧ ((0 < throttleInterval s)%Z →
       ∀ k ms m dt,
         window s = None → ws_open s st = Some k →
         last ms = Some m → (throttleInterval s ≤ dt)%Z →
         log (run (sends sid ms) st) = log st
         ∧ log (run (sends sid ms ++ [EvTime dt; EvThrottle sid]) st)
           = log st ++ [WsSend k ("uuid-" +:+ pretty (uuids st)) m])
  ∧ ((throttleInterval s ≤ 0)%Z →
       (∀ input, send sid input st = _send sid input st)
       ∧ ∀ k ms,
           ws_open s st = Some k →
           log (run (sends sid ms) st)
           = log st ++ sent_frames k (uuids st) ms).
Proof.
  intros Hs. split; [|split; [|split]].
  - intros a h st0 st1 Hh Hc. unfold connect in Hc. rewrite Hh in Hc.
    destruct (h_connectionKey h) as [key|]; simpl in Hc;
      destruct (default _ (h_clientOnly h) && _); simplify_eq; simpl;
      by rewrite lookup_app_r, Nat.sub_diag.
  - intros Hi input. by apply (send_throttled sid s).
  - intros Hi k ms m dt Hw Ho Hl Hdt.
    destruct ms as [|m0 ms]; [done|].
    assert (default m0 (last ms) = m) as Hm.
    { destruct ms as [|m' ms]; [by simplify_eq/=|].
      rewrite last_cons_cons in Hl. by rewrite Hl. }
    rewrite run_app, (sends_open_window sid m0 ms s st) by done.
    rewrite Hm. split; [done|].
    change (run [EvTime dt; EvThrottle sid] ?x)
      with (step (EvThrottle sid) (step (EvTime dt) x)).
    unfold step, handle. rewrite drain_nil.
    destruct (0 <=? dt)%Z eqn:E; [|lia].
    unfold throttle_elapsed. simpl.
    rewrite list_lookup_alter_eq, Hs. simpl.
    destruct (now st + throttleInterval s <=? now st + dt)%Z eqn:E2; [|lia].
    erewrite _send_open; [reflexivity| |].
    + rewrite lookup_upd_session. simpl.
      by rewrite list_lookup_alter_eq, Hs.
    + exact Ho.
  - intros Hi. split.
    + intros input. by apply (send_unthrottled sid s).
    + intros k ms Ho. by apply (sends_unthrottled sid s).
Qed.

Lemma C7_throttled_send_witness :
  log (run (sends 0 [prompt "x"; prompt "y"; prompt "z"]
              ++ [EvTime 64; EvThrottle 0]) demo_throttled)
  = log demo_throttled ++ [WsSend 0 "uuid-2" (prompt "z")]
  ∧ log (run (sends 0 [prompt "x"; prompt "y"]) demo_open)
    = log demo_open
        ++ [WsSend 0 "uuid-2" (prompt "x"); WsSend 0 "uuid-3" (prompt "y")].
Proof.
  split.
  - apply (proj1 (proj2 (proj2
             (C7_throttled_send 0
                {| app := "1-app"; connectionKey := "K";
                   throttleInterval := 64; pendingMessage := None;
                   reconnecting := false; ws := Some 0; window := None |}
                demo_throttled eq_refl)))); reflexivity.
  - exact (proj2 (proj2 (proj2 (proj2
             (C7_throttled_send 0
                {| app := "1-app"; connectionKey := "K";
                   throttleInterval := 0; pendingMessage := None;
                   reconnecting := false; ws := Some 0; window := None |}
                demo_open eq_refl))) (Z.le_refl 0))
             0 [prompt "x"; prompt "y"] eq_refl).
Defined.

(** ** One token and one refresh per application *)

Lemma refresh_inv_ext st st' :
  inflight st' = inflight st →
  authInProgress st' = authInProgress st →
  refresh_inv st → refresh_inv st'.
Proof. unfold refresh_inv. by intros -> ->. Qed.

Lemma filter_key_nil {A} (f : A → string) a (l : list A) :
  a ∉ f <$> l → filter (λ x, f x = a) l = [].
Proof.
  induction l as [|x l IH]; [done|]. intros Hn.
  rewrite fmap_cons, not_elem_of_cons in Hn. destruct Hn as [Hne Hn].
  rewrite filter_cons_False by done. by apply IH.
Qed.

Lemma filter_key_length {A} (f : A → string) a (l : list A) :
  NoDup (f <$> l) → length (filter (λ x, f x = a) l) ≤ 1.
Proof.
  induction l as [|x l IH]; [simpl; lia|]. intros Hnd.
  rewrite fmap_cons, NoDup_cons in Hnd. destruct Hnd as [Hx Hnd].
  destruct (decide (f x = a)) as [He|Hne].
  - rewrite filter_cons_True by done. subst a.
    rewrite filter_key_nil by done. simpl. lia.
  - rewrite filter_cons_False by done. by apply IH.
Qed.

Lemma getConnection_spec a key st :
  inflight (getConnection a key st).2 = inflight st
  ∧ (match (getConnection a key st).1 with
     | Awaiting =>
         (a ∉ authInProgress st)
         ∧ (authInProgress (getConnection a key st).2
            = {[a]} ∪ authInProgress st)
     | _ => authInProgress (getConnection a key st).2 = authInProgress st
     end).
Proof.
  unfold getConnection, connectionManager.isAuthInProgress.
  case_bool_decide as Ha; [done|].
  destruct (connectionManager.has key st).
  { by destruct (connectionManager.get key st). }
  destruct (connectionManager.token a st) as [t|]; [|done].
  destruct (truthy t); [|done].
  unfold getConnection_open. by destruct (websocketAccepts _ _ _).
Qed.

Lemma reconnect_refresh_inv sid st :
  refresh_inv st → refresh_inv (reconnect sid st).1.
Proof.
  intros Hinv. unfold reconnect.
  destruct (sessions st !! sid) as [s|]; [|done].
  destruct (ws_open s st); [done|].
  destruct (connectionManager.isAuthInProgress (app s) st); [done|].
  destruct (getConnection_spec (app s) (connectionKey s) st) as [Hi Ha].
  destruct (getConnection (app s) (connectionKey s) st) as [[k| |] st1];
    simpl in Hi, Ha.
  - by apply (refresh_inv_ext st).
  - by apply (refresh_inv_ext st).
  - destruct Ha as [Hfresh Ha]. destruct Hinv as [Hnd Hin].
    unfold refresh_inv. simpl. rewrite Hi, Ha. split.
    + rewrite fmap_app. apply NoDup_app. split; [done|]. split.
      * intros x Hx Hx'. apply list_elem_of_singleton in Hx'.
        simpl in Hx'. subst x.
        apply list_elem_of_fmap in Hx as (r & Heq & Hr).
        apply Hfresh. rewrite Heq. by apply Hin.
      * apply NoDup_singleton.
    + intros r Hr. apply elem_of_app in Hr as [Hr|Hr].
      * apply elem_of_union_r. by apply Hin.
      * apply list_elem_of_singleton in Hr. subst r. simpl.
        apply elem_of_union_l. by apply elem_of_singleton.
Qed.

Lemma _send_refresh_inv sid input st :
  refresh_inv st → refresh_inv (_send sid input st).1.
Proof.
  intros Hinv. unfold _send.
  destruct (sessions st !! sid) as [s|]; [|done]. simpl.
  destruct (ws_open s _); [by apply (refresh_inv_ext st)|].
  destruct (reconnecting s); [by apply (refresh_inv_ext st)|].
  apply reconnect_refresh_inv. by apply (refresh_inv_ext st).
Qed.

Lemma send_refresh_inv sid input st :
  refresh_inv st → refresh_inv (send sid input st).1.
Proof.
  intros Hinv. unfold send.
  destruct (sessions st !! sid) as [s|] eqn:Hs; [|done].
  destruct (0 <? throttleInterval s)%Z; [|by apply _send_refresh_inv].
  unfold throttle_call. rewrite Hs.
  destruct (window s) as [[d a]|]; by apply (refresh_inv_ext st).
Qed.

Lemma throttle_elapsed_refresh_inv sid st :
  refresh_inv st → refresh_inv (throttle_elapsed sid st).1.
Proof.
  intros Hinv. unfold throttle_elapsed.
  destruct (sessions st !! sid) as [s|]; [|done].
  destruct (window s) as [[d a]|]; [|done].
  destruct (d <=? now st)%Z; [|done].
  apply _send_refresh_inv. by apply (refresh_inv_ext st).
Qed.

Lemma onopen_refresh_inv sid st :
  refresh_inv st → refresh_inv (onopen sid st).1.
Proof.
  intros Hinv. unfold onopen.
  set (st1 := upd_session sid (with_reconnecting false) st).
  assert (refresh_inv st1) as H1 by by apply (refresh_inv_ext st).
  destruct (sessions st1 !! sid) as [s|]; [|done].
  destruct (pendingMessage s) as [m|]; [|done].
  destruct (truthy m); [|done].
  pose proof (send_refresh_inv sid m st1 H1) as H2.
  destruct (send sid m st1) as [st2 q]. simpl in *.
  by apply (refresh_inv_ext st2).
Qed.

Lemma onclose_refresh_inv code reason sid st :
  refresh_inv st → refresh_inv (onclose sid code reason st).
Proof.
  intros Hinv. unfold onclose.
  destruct (sessions st !! sid) as [s|]; [|done].
  destruct (negb (code =? NORMAL_CLOSURE)%Z); by apply (refresh_inv_ext st).
Qed.

Lemma onerror_refresh_inv sid st :
  refresh_inv st → refresh_inv (onerror sid st).
Proof.
  intros Hinv. unfold onerror.
  destruct (sessions st !! sid) as [s|]; [|done].
  by apply (refresh_inv_ext st).
Qed.

Lemma onmessage_refresh_inv parsed sid st :
  refresh_inv st → refresh_inv (onmessage sid parsed st).
Proof.
  intros Hinv. unfold onmessage.
  destruct parsed as [data|]; [|done].
  destruct (get_prop data "status"); [|done].
  destruct (get_prop data "type"); [|done].
  destruct (_ && _); [|done]. by apply (refresh_inv_ext st).
Qed.

Lemma dispatch_refresh_inv k f st :
  (∀ sid st', refresh_inv st' → refresh_inv (f sid st')) →
  refresh_inv st → refresh_inv (dispatch k f st).
Proof.
  intros Hf Hinv. unfold dispatch.
  destruct (sockets st !! k) as [w|]; [|done].
  destruct (listeners w); [by apply Hf|done].
Qed.

(** The callbacks leave the requests and the flags as they are. *)
Lemma run_queue_refresh q : ∀ st,
  inflight (run_queue q st).1 = inflight st
  ∧ authInProgress (run_queue q st).1 = authInProgress st.
Proof.
  induction q as [|t q IH]; intros st; [done|]. simpl.
  destruct (run_microtask t st) as [st1 q1] eqn:E1.
  specialize (IH st1). destruct (run_queue q st1) as [st2 q2]. simpl in *.
  destruct IH as [-> ->].
  destruct t; simpl in E1; by injection E1 as <- <-.
Qed.

Lemma drain_refresh_inv r : refresh_inv r.1 → refresh_inv (drain r).
Proof.
  destruct r as [st q]. simpl. intros Hinv. unfold drain. simpl.
  destruct (run_queue_refresh q st) as [Hi Ha].
  destruct (run_queue q st) as [st1 q1]. simpl in *.
  destruct (run_queue_refresh q1 st1) as [Hi1 Ha1].
  apply (refresh_inv_ext st); [by rewrite Hi1|by rewrite Ha1|done].
Qed.

Lemma run_calls_refresh_inv cs : ∀ st,
  refresh_inv st → refresh_inv (run_calls cs st).1.
Proof.
  induction cs as [|c cs IH]; intros st Hinv; [done|]. simpl.
  assert (refresh_inv (run_call c st).1) as H1.
  { destruct c as [a h|[|sid] m|[|sid]]; simpl; try done.
    - unfold connect.
      destruct (h_connectionKey h); simpl;
        destruct (default _ (h_clientOnly h) && _);
        by apply (refresh_inv_ext st).
    - by apply send_refresh_inv.
    - destruct (close_cases sid st) as [->|[k ->]]; [done|].
      by apply (refresh_inv_ext st). }
  destruct (run_call c st) as [st1 q1]. simpl in H1.
  specialize (IH st1 H1). by destruct (run_calls cs st1).
Qed.

(** The applications of the other outstanding requests differ from the
    application of the request that is taken out. *)
Lemma delete_other_key {A} (f : A → string) (l : list A) i x y :
  NoDup (f <$> l) → l !! i = Some x → y ∈ delete i l → f y ≠ f x.
Proof.
  intros Hnd Hi Hy.
  rewrite <- (take_drop_middle l i x Hi) in Hnd.
  rewrite delete_take_drop in Hy.
  rewrite fmap_app, fmap_cons in Hnd.
  apply NoDup_app in Hnd as (_ & Hl & Hr).
  apply NoDup_cons in Hr as [Hr _].
  apply elem_of_app in Hy as [Hy|Hy]; intros Heq.
  - apply (Hl (f y)); [by apply list_elem_of_fmap_2|].
    rewrite Heq. by left.
  - apply Hr. rewrite <- Heq. by apply list_elem_of_fmap_2.
Qed.

Lemma delete_NoDup_fmap {A} (f : A → string) (l : list A) i :
  NoDup (f <$> l) → NoDup (f <$> delete i l).
Proof.
  intros Hnd. eapply sublist_NoDup; [exact Hnd|].
  apply fmap_sublist, sublist_delete.
Qed.

Lemma elem_of_delete_list {A} (l : list A) i y : y ∈ delete i l → y ∈ l.
Proof. intros Hy. eapply elem_of_sublist; [done|apply sublist_delete]. Qed.

Lemma token_response_refresh_inv i answer st :
  refresh_inv st → refresh_inv (token_response i answer st).1.
Proof.
  intros [Hnd Hin]. unfold token_response.
  destruct (inflight st !! i) as [r|] eqn:Hr; [|done].
  unfold getConnection_resume, connectionManager.refreshToken_resume.
  assert (refresh_inv (set_inflight (delete i (inflight st)) st)) as Hko.
  { split; simpl; [by apply delete_NoDup_fmap|].
    intros r' Hr'. apply Hin. by apply elem_of_delete_list in Hr'. }
  destruct answer as [v|]; [|by apply (refresh_inv_ext _ _ eq_refl eq_refl)].
  destruct (getToken_resume v) as [t|];
    [|by apply (refresh_inv_ext _ _ eq_refl eq_refl)].
  match goal with
  | |- refresh_inv (let '(_, _) := ?x in _).1 =>
      assert (inflight x.2 = delete i (inflight st)
              ∧ authInProgress x.2 = authInProgress st ∖ {[rq_app r]})
        as [Hi Ha];
      [unfold getConnection_open; simpl;
       by destruct (websocketAccepts _ _ _)|];
      destruct x as [c st3]
  end.
  simpl in *. split; rewrite ?Hi, ?Ha; [by apply delete_NoDup_fmap|].
  intros r' Hr'. apply elem_of_difference. split.
  - apply Hin. by apply elem_of_delete_list in Hr'.
  - rewrite elem_of_singleton.
    by apply (delete_other_key rq_app (inflight st) i).
Qed.

Lemma handle_refresh_inv e st : refresh_inv st → refresh_inv (handle e st).1.
Proof.
  intros Hinv. destruct e as [a h|c m|c|cs|i answer|k|k failed code reason
                             |k parsed|sid|i|dt]; simpl.
  - unfold connect.
    destruct (h_connectionKey h); simpl;
      destruct (default _ (h_clientOnly h) && _);
      by apply (refresh_inv_ext st).
  - destruct c; [done|]. by apply send_refresh_inv.
  - destruct c as [|sid]; [done|]. simpl.
    destruct (close_cases sid st) as [->|[k ->]]; [done|].
    by apply (refresh_inv_ext st).
  - by apply run_calls_refresh_inv.
  - by apply token_response_refresh_inv.
  - unfold socket_open. destruct (sockets st !! k) as [w|]; [|done].
    destruct (decide _); [|done].
    destruct (listeners w);
      [apply onopen_refresh_inv|]; by apply (refresh_inv_ext st).
  - unfold socket_close. destruct (sockets st !! k) as [w|]; [|done].
    destruct (decide _); [done|].
    apply dispatch_refresh_inv; [apply onclose_refresh_inv|].
    destruct failed; [|by apply (refresh_inv_ext st)].
    apply dispatch_refresh_inv; [apply onerror_refresh_inv|].
    by apply (refresh_inv_ext st).
  - unfold socket_message. destruct (sockets st !! k) as [w|]; [|done].
    destruct (decide _); [|done].
    by apply dispatch_refresh_inv; [apply onmessage_refresh_inv|].
  - by apply throttle_elapsed_refresh_inv.
  - unfold token_timeout. destruct (timeouts st !! i) as [[due a]|]; [|done].
    destruct (due <=? now st)%Z; [|done]. by apply (refresh_inv_ext st).
  - destruct (0 <=? dt)%Z; [|done]. by apply (refresh_inv_ext st).
Qed.

Lemma step_refresh_inv e st : refresh_inv st → refresh_inv (step e st).
Proof. intros Hinv. by apply drain_refresh_inv, handle_refresh_inv. Qed.

Lemma run_refresh_inv evs : ∀ st, refresh_inv st → refresh_inv (run evs st).
Proof.
  induction evs as [|e evs IH]; intros st Hinv; [done|].
  simpl. apply IH. by apply step_refresh_inv.
Qed.

Lemma init_refresh_inv c : refresh_inv (init c).
Proof.
  split; simpl; [by apply NoDup_nil|]. intros r Hr. by apply elem_of_nil in Hr.
Qed.

(** C5.  Whatever the application does and whatever the network answers, in
    any order, the token store holds at most one token for an application
    and at most one token request for it is outstanding. *)
Theorem C5_one_token_one_refresh (c : config) (evs : list event)
    (a : string) :
  length (tokens_for a (tokens (run evs (init c)))) ≤ 1
  ∧ length (requests_for a (inflight (run evs (init c)))) ≤ 1.
Proof.
  split.
  - apply (filter_key_length fst). apply NoDup_fst_map_to_list.
  - apply (filter_key_length rq_app).
    apply (run_refresh_inv evs (init c)), init_refresh_inv.
Qed.

(** * Further properties *)

(** ** The registry holds live sockets only *)

Lemma session_key_upd (f : session → session) sid i st :
  (∀ s, connectionKey (f s) = connectionKey s) →
  session_key i (upd_session sid f st) = session_key i st.
Proof.
  intros Hf. unfold session_key, upd_session. simpl.
  destruct (decide (sid = i)) as [->|Hne].
  - rewrite list_lookup_alter_eq. destruct (sessions st !! i); simpl; [|done].
    by rewrite Hf.
  - by rewrite list_lookup_alter_ne.
Qed.

Lemma registry_inv_mono st st' :
  connections st' = connections st →
  sockets st' = sockets st →
  (∀ r, r ∈ inflight st' → r ∈ inflight st) →
  (∀ i K, session_key i st = Some K → session_key i st' = Some K) →
  registry_inv st → registry_inv st'.
Proof.
  intros Hc Hs Hi Hk [Hreg Hreq]. split.
  - intros K k HK. rewrite Hc in HK.
    destruct (Hreg K k HK) as (w & sid & Hw & Hr & Hl & Hsk).
    exists w, sid. rewrite Hs. eauto.
  - intros r Hr. apply Hk, Hreq, Hi, Hr.
Qed.

(** Changes of the variables of a session other than its key, and changes
    outside the registry, the sockets and the outstanding requests. *)
Ltac frame st :=
  apply (registry_inv_mono st); [done|done|done| |done];
  intros ??; repeat (rewrite session_key_upd; [|done]); done.

Lemma registry_pending_mono st st' q q' :
  connections st' = connections st →
  sockets st' = sockets st →
  (∀ r, r ∈ inflight st' → r ∈ inflight st) →
  (∀ i K, session_key i st = Some K → session_key i st' = Some K) →
  (∀ sid k, MtThen sid k ∈ q' ↔ MtThen sid k ∈ q) →
  registry_pending st q → registry_pending st' q'.
Proof.
  intros Hc Hs Hi Hk Hq (Hreg & Hthen & Hinj & Hreq).
  split; [|split; [|split]].
  - intros K k HK. rewrite Hc in HK.
    destruct (Hreg K k HK) as (w & Hw & Hr & Hd).
    exists w. rewrite Hs. split; [done|]. split; [done|].
    destruct Hd as [(sid & Hl & Hsk)|(sid & Hin)].
    + left. exists sid. eauto.
    + right. exists sid. by apply Hq.
  - intros sid k Hin. apply Hq in Hin.
    destruct (Hthen sid k Hin) as (K & HK & Hcon).
    exists K. rewrite Hc. eauto.
  - intros K1 K2 k. rewrite Hc. apply Hinj.
  - intros r Hr. apply Hk, Hreq, Hi, Hr.
Qed.

Ltac framep st q :=
  cbn [fst snd]; rewrite ?app_nil_r;
  apply (registry_pending_mono st _ q);
  [done|done|done
  |intros ??; repeat (rewrite session_key_upd; [|done]); done
  |done
  |done].

(** Between tasks the queue is empty, and the two invariants agree. *)
Lemma registry_inv_pending st : registry_inv st → registry_pending st [].
Proof.
  intros [Hreg Hreq]. split; [|split; [|split]].
  - intros K k HK. destruct (Hreg K k HK) as (w & sid & Hw & Hr & Hl & Hsk).
    exists w. split; [done|]. split; [done|]. left. by exists sid.
  - intros sid k Hin. by apply elem_of_nil in Hin.
  - intros K1 K2 k H1 H2.
    destruct (Hreg K1 k H1) as (w1 & sid1 & Hw1 & _ & Hl1 & Hsk1).
    destruct (Hreg K2 k H2) as (w2 & sid2 & Hw2 & _ & Hl2 & Hsk2).
    congruence.
  - exact Hreq.
Qed.

Lemma registry_pending_inv st : registry_pending st [] → registry_inv st.
Proof.
  intros (Hreg & _ & _ & Hreq). split; [|exact Hreq].
  intros K k HK. destruct (Hreg K k HK) as (w & Hw & Hr & Hd).
  destruct Hd as [(sid & Hl & Hsk)|(sid & Hin)].
  - by exists w, sid.
  - by apply elem_of_nil in Hin.
Qed.

Lemma getConnection_cases a key st :
  getConnection a key st = (Rejected, st)
  ∨ (∃ k, connections st !! key = Some k
          ∧ getConnection a key st = (Fulfilled k, st))
  ∨ (∃ t, connections st !! key = None
          ∧ getConnection a key st
            = (settled (getConnection_open a key t st).1,
               (getConnection_open a key t st).2))
  ∨ getConnection a key st
    = (Awaiting,
       connectionManager.refreshToken a
         (connectionManager.setAuthInProgress a true st)).
Proof.
  unfold getConnection, connectionManager.has, connectionManager.get.
  destruct (connectionManager.isAuthInProgress a st); [by left|].
  case_bool_decide as Hhas.
  { destruct Hhas as [k Hk]. rewrite Hk. right. left. by exists k. }
  assert (connections st !! key = None) as Hnone.
  { destruct (connections st !! key) eqn:E; [|done].
    exfalso. apply Hhas. eauto. }
  destruct (connectionManager.token a st) as [t|]; [|by do 3 right].
  destruct (truthy t); [|by do 3 right].
  right. right. left. exists t. split; [done|].
  by destruct (getConnection_open a key t st).
Qed.

Lemma lookup_upd_socket_ne k k' f st :
  k ≠ k' → sockets (upd_socket k f st) !! k' = sockets st !! k'.
Proof. intros. unfold upd_socket. simpl. by apply list_lookup_alter_ne. Qed.

Lemma session_key_reconnect_then i sid k st :
  session_key i (reconnect_then sid k st) = session_key i st.
Proof.
  unfold reconnect_then.
  change (session_key i (upd_session sid (with_ws (Some k)) st)
          = session_key i st).
  by apply session_key_upd.
Qed.

Lemma elem_of_snoc_then sid k (t : microtask) q :
  (∀ sid' k', t ≠ MtThen sid' k') →
  MtThen sid k ∈ q ++ [t] ↔ MtThen sid k ∈ q.
Proof.
  intros Ht. rewrite elem_of_app, list_elem_of_singleton. split; [|by left].
  intros [H|H]; [done|]. by destruct (Ht sid k).
Qed.

(** [new WebSocket] for a key under which no socket with a queued [then]
    callback is registered: the socket made is registered and its [then]
    callback queued; nothing changes when the constructor throws. *)
Lemma open_registry_pending a key t sid st q :
  registry_pending st q → session_key sid st = Some key →
  (∀ sid' k, MtThen sid' k ∈ q → connections st !! key ≠ Some k) →
  registry_pending (getConnection_open a key t st).2
    (q ++ reactions sid (settled (getConnection_open a key t st).1)).
Proof.
  intros Hinv Hsid Hfree. unfold getConnection_open.
  destruct (websocketAccepts _ _ _); simpl.
  2:{ apply (registry_pending_mono st _ q); try done.
      intros ??. by apply elem_of_snoc_then. }
  destruct Hinv as (Hreg & Hthen & Hinj & Hreq).
  split; [|split; [|split]].
  - intros K k HK.
    change (<[key:=length (sockets st)]> (connections st) !! K = Some k)
      in HK.
    change (∃ w,
      (sockets st ++
         [{| readyState := CONNECTING; ws_url := buildRealtimeUrl a st;
             ws_token := t; listeners := None |}]) !! k = Some w
      ∧ readyState w ≠ CLOSED
      ∧ ((∃ sid0, listeners w = Some sid0 ∧ session_key sid0 st = Some K)
         ∨ (∃ sid0, MtThen sid0 k ∈ q ++ [MtThen sid (length (sockets st))]))).
    destruct (decide (key = K)) as [->|Hne].
    + rewrite lookup_insert_eq in HK. simplify_eq.
      eexists. rewrite lookup_app_r, Nat.sub_diag by done.
      split; [done|]. split; [done|]. right. exists sid.
      apply elem_of_app. right. by apply list_elem_of_singleton.
    + rewrite lookup_insert_ne in HK by done.
      destruct (Hreg K k HK) as (w & Hw & Hr & Hd).
      exists w. rewrite lookup_app_l by by eapply lookup_lt_Some.
      split; [done|]. split; [done|].
      destruct Hd as [(sid' & Hl & Hsk)|(sid' & Hin)].
      * left. by exists sid'.
      * right. exists sid'. apply elem_of_app. by left.
  - intros sid' k Hin.
    change (∃ K, session_key sid' st = Some K
                 ∧ <[key:=length (sockets st)]> (connections st) !! K
                   = Some k).
    apply elem_of_app in Hin as [Hin|Hin].
    + destruct (Hthen sid' k Hin) as (K & HK1 & HK2). exists K.
      split; [done|]. rewrite lookup_insert_ne; [done|].
      intros ->. by apply (Hfree sid' k).
    + apply list_elem_of_singleton in Hin. simplify_eq.
      exists key. split; [done|]. apply lookup_insert_eq.
  - intros K1 K2 k H1 H2.
    change (<[key:=length (sockets st)]> (connections st) !! K1 = Some k)
      in H1.
    change (<[key:=length (sockets st)]> (connections st) !! K2 = Some k)
      in H2.
    destruct (decide (key = K1)) as [<-|N1];
      destruct (decide (key = K2)) as [<-|N2]; [done| | |].
    + rewrite lookup_insert_eq in H1. rewrite lookup_insert_ne in H2 by done.
      simplify_eq. destruct (Hreg _ _ H2) as (w & Hw & _).
      apply lookup_lt_Some in Hw. lia.
    + rewrite lookup_insert_eq in H2. rewrite lookup_insert_ne in H1 by done.
      simplify_eq. destruct (Hreg _ _ H1) as (w & Hw & _).
      apply lookup_lt_Some in Hw. lia.
    + rewrite lookup_insert_ne in H1, H2 by done. by apply (Hinj K1 K2 k).
  - exact Hreq.
Qed.

(** A registered socket handed to another session of the same key. *)
Lemma reuse_registry_pending key k sid st q :
  registry_pending st q → session_key sid st = Some key →
  connections st !! key = Some k →
  registry_pending st (q ++ [MtThen sid k]).
Proof.
  intros (Hreg & Hthen & Hinj & Hreq) Hsid Hk.
  split; [|split; [|split]]; [| |done|done].
  - intros K k' HK. destruct (Hreg K k' HK) as (w & Hw & Hr & Hd).
    exists w. split; [done|]. split; [done|].
    destruct Hd as [Hd|(sid' & Hin)]; [by left|].
    right. exists sid'. apply elem_of_app. by left.
  - intros sid' k' Hin. apply elem_of_app in Hin as [Hin|Hin].
    + by apply Hthen.
    + apply list_elem_of_singleton in Hin. simplify_eq. by exists key.
Qed.

(** The [then] callback runs: the listeners of its socket are assigned to
    its session, which is connected under the key of the socket. *)
Lemma reconnect_then_registry_pending sid k st q :
  registry_pending st (MtThen sid k :: q) →
  registry_pending (reconnect_then sid k st) q.
Proof.
  intros (Hreg & Hthen & Hinj & Hreq).
  destruct (Hthen sid k) as (K0 & Hsk0 & Hk0); [by left|].
  split; [|split; [|split]].
  - intros K k' HK. change (connections st !! K = Some k') in HK.
    setoid_rewrite session_key_reconnect_then.
    change (∃ w,
      alter (with_listeners (Some sid)) k (sockets st) !! k' = Some w
      ∧ readyState w ≠ CLOSED
      ∧ ((∃ sid0, listeners w = Some sid0 ∧ session_key sid0 st = Some K)
         ∨ (∃ sid0, MtThen sid0 k' ∈ q))).
    destruct (Hreg K k' HK) as (w & Hw & Hr & Hd).
    destruct (decide (k = k')) as [<-|Hne].
    + exists (with_listeners (Some sid) w).
      rewrite list_lookup_alter_eq, Hw. split; [done|]. split; [done|].
      left. exists sid. split; [done|].
      by rewrite (Hinj K K0 k HK Hk0).
    + exists w. rewrite list_lookup_alter_ne by done.
      split; [done|]. split; [done|].
      destruct Hd as [Hd|(sid' & Hin)]; [by left|].
      right. exists sid'. apply elem_of_cons in Hin as [Hin|Hin]; [|done].
      by simplify_eq.
  - intros sid' k' Hin. setoid_rewrite session_key_reconnect_then.
    apply (Hthen sid' k'). by right.
  - exact Hinj.
  - intros r Hr. rewrite session_key_reconnect_then. by apply Hreq.
Qed.

Lemma reconnect_registry_pending sid st q :
  registry_pending st q →
  registry_pending (reconnect sid st).1 (q ++ (reconnect sid st).2).
Proof.
  intros Hinv. unfold reconnect.
  destruct (sessions st !! sid) as [s|] eqn:Hs; [|by rewrite app_nil_r].
  assert (session_key sid st = Some (connectionKey s)) as Hsk.
  { unfold session_key. by rewrite Hs. }
  destruct (ws_open s st); [by rewrite app_nil_r|].
  destruct (connectionManager.isAuthInProgress (app s) st);
    [by rewrite app_nil_r|].
  destruct (getConnection_cases (app s) (connectionKey s) st)
    as [->|[(k & Hk & ->)|[(t & Hk & ->)| ->]]].
  - apply (registry_pending_mono st _ q); try done.
    intros ??. by apply elem_of_snoc_then.
  - by apply (reuse_registry_pending (connectionKey s)).
  - pose proof (open_registry_pending (app s) (connectionKey s) t sid st q
                  Hinv Hsk) as Ho.
    destruct (getConnection_open (app s) (connectionKey s) t st)
      as [[k|] st1]; simpl in *; apply Ho; intros ??; by rewrite Hk.
  - destruct Hinv as (Hreg & Hthen & Hinj & Hreq). cbn [fst snd].
    rewrite app_nil_r. split; [|split; [|split]]; [done..|].
    intros r Hr. simpl in Hr. apply elem_of_app in Hr as [Hr|Hr].
    + by apply Hreq.
    + apply list_elem_of_singleton in Hr. by subst r.
Qed.

Lemma _send_registry_pending sid input st q :
  registry_pending st q →
  registry_pending (_send sid input st).1 (q ++ (_send sid input st).2).
Proof.
  intros Hinv. unfold _send.
  destruct (sessions st !! sid) as [s|]; [|by rewrite app_nil_r].
  simpl.
  destruct (ws_open s (set_uuids (S (uuids st)) st)); [by framep st q|].
  destruct (reconnecting s); [by framep st q|].
  apply reconnect_registry_pending. by framep st q.
Qed.

Lemma send_registry_pending sid input st q :
  registry_pending st q →
  registry_pending (send sid input st).1 (q ++ (send sid input st).2).
Proof.
  intros Hinv. unfold send.
  destruct (sessions st !! sid) as [s|] eqn:Hs; [|by rewrite app_nil_r].
  destruct (0 <? throttleInterval s)%Z;
    [|by apply _send_registry_pending].
  unfold throttle_call. rewrite Hs.
  destruct (window s) as [[d a]|]; by framep st q.
Qed.

Lemma throttle_elapsed_registry_pending sid st q :
  registry_pending st q →
  registry_pending (throttle_elapsed sid st).1
    (q ++ (throttle_elapsed sid st).2).
Proof.
  intros Hinv. unfold throttle_elapsed.
  destruct (sessions st !! sid) as [s|]; [|by rewrite app_nil_r].
  destruct (window s) as [[d a]|]; [|by rewrite app_nil_r].
  destruct (d <=? now st)%Z; [|by rewrite app_nil_r].
  apply _send_registry_pending. by framep st q.
Qed.

Lemma onopen_registry_pending sid st q :
  registry_pending st q →
  registry_pending (onopen sid st).1 (q ++ (onopen sid st).2).
Proof.
  intros Hinv. unfold onopen.
  assert (registry_pending (upd_session sid (with_reconnecting false) st) q)
    as H1 by by framep st q.
  revert H1. generalize (upd_session sid (with_reconnecting false) st).
  intros st1 H1.
  destruct (sessions st1 !! sid) as [s|]; [|by rewrite app_nil_r].
  destruct (pendingMessage s) as [m|]; [|by rewrite app_nil_r].
  destruct (truthy m); [|by rewrite app_nil_r].
  pose proof (send_registry_pending sid m st1 q H1) as H2.
  destruct (send sid m st1) as [st2 q2]. cbn [fst snd] in *.
  apply (registry_pending_mono st2 _ (q ++ q2)); try done.
  intros ??. by rewrite session_key_upd.
Qed.

Lemma connect_registry_pending a h st q :
  registry_pending st q → registry_pending (connect a h st).2 q.
Proof.
  intros Hinv. unfold connect.
  destruct (h_connectionKey h); simpl;
    destruct (default _ (h_clientOnly h) && _); simpl;
    (apply (registry_pending_mono st _ q); [done|done|done| |done|done]);
    intros i K; unfold session_key; simpl; intros Hi; try done;
    (rewrite lookup_app_l; [done|]);
    destruct (sessions st !! i) eqn:E; [by eapply lookup_lt_Some|done
                                       |by eapply lookup_lt_Some|done].
Qed.

Lemma run_call_registry_pending c st q :
  registry_pending st q →
  registry_pending (run_call c st).1 (q ++ (run_call c st).2).
Proof.
  intros Hinv. destruct c as [a h|[|sid] m|[|sid]]; cbn [run_call fst snd
    connection_send connection_close]; rewrite ?app_nil_r; try done.
  - by apply connect_registry_pending.
  - by apply send_registry_pending.
  - destruct (close_cases sid st) as [->|[k ->]]; [done|]. by framep st q.
Qed.

Lemma run_calls_registry_pending cs : ∀ st q,
  registry_pending st q →
  registry_pending (run_calls cs st).1 (q ++ (run_calls cs st).2).
Proof.
  induction cs as [|c cs IH]; intros st q Hinv; [by rewrite app_nil_r|].
  simpl. pose proof (run_call_registry_pending c st q Hinv) as H1.
  destruct (run_call c st) as [st1 q1]. cbn [fst snd] in H1.
  specialize (IH st1 (q ++ q1) H1).
  destruct (run_calls cs st1) as [st2 q2]. cbn [fst snd] in *.
  by rewrite app_assoc.
Qed.

(** The close of socket [k], whose listeners belong to a session of key
    [key]: the socket is closed and the key leaves the registry. *)
Lemma closed_registry_inv k w sid key st st' :
  registry_inv st →
  sockets st !! k = Some w → listeners w = Some sid →
  session_key sid st = Some key →
  (∀ K, connections st' !! K
        = if decide (K = key) then None else connections st !! K) →
  sockets st' = alter (with_readyState CLOSED) k (sockets st) →
  inflight st' = inflight st →
  (∀ i, session_key i st' = session_key i st) →
  registry_inv st'.
Proof.
  intros [Hreg Hreq] Hw Hl Hsk Hc Hs Hi Hk. split.
  - intros K k' HK. rewrite Hc in HK.
    destruct (decide (K = key)) as [|Hne]; [done|].
    destruct (Hreg K k' HK) as (w' & sid' & Hw' & Hr' & Hl' & Hsk').
    assert (k ≠ k') as Hkk.
    { intros <-. simplify_eq. }
    exists w', sid'. rewrite Hs, Hk, list_lookup_alter_ne by done. done.
  - intros r Hr. rewrite Hk. apply Hreq. by rewrite <- Hi.
Qed.

Lemma delete_lookup_if (m : gmap string nat) key K :
  delete key m !! K = if decide (K = key) then None else m !! K.
Proof.
  destruct (decide (K = key)) as [->|Hne].
  - apply lookup_delete_eq.
  - by apply lookup_delete_ne.
Qed.

Lemma dispatch_listener k w sid f st :
  sockets st !! k = Some w → listeners w = Some sid →
  dispatch k f st = f sid st.
Proof. intros Hw Hl. unfold dispatch. by rewrite Hw, Hl. Qed.

Lemma dispatch_no_listener k w f st :
  sockets st !! k = Some w → listeners w = None → dispatch k f st = st.
Proof. intros Hw Hl. unfold dispatch. by rewrite Hw, Hl. Qed.

(** The close of a socket that is not in the registry. *)
Lemma closed_unregistered_registry_inv k st :
  registry_inv st →
  (∀ K, connections st !! K ≠ Some k) →
  registry_inv (upd_socket k (with_readyState CLOSED) st).
Proof.
  intros [Hreg Hreq] Hno. split; [|exact Hreq].
  intros K k' HK. change (connections st !! K = Some k') in HK.
  destruct (Hreg K k' HK) as (w' & sid' & Hw' & Hr' & Hl' & Hsk').
  exists w', sid'. rewrite lookup_upd_socket_ne; [done|].
  intros ->. by apply (Hno K).
Qed.

Lemma session_key_alter (f : session → session) sid i st st' :
  (∀ s, connectionKey (f s) = connectionKey s) →
  sessions st' = alter f sid (sessions st) →
  session_key i st' = session_key i st.
Proof.
  intros Hf Hs. unfold session_key. rewrite Hs.
  destruct (decide (sid = i)) as [->|Hne].
  - rewrite list_lookup_alter_eq. destruct (sessions st !! i); simpl; [|done].
    by rewrite Hf.
  - by rewrite list_lookup_alter_ne.
Qed.

(** What the [onerror] listener does to the state. *)
Lemma onerror_effect sid s st :
  sessions st !! sid = Some s →
  connections (onerror sid st) = delete (connectionKey s) (connections st)
  ∧ tokens (onerror sid st) = delete (app s) (tokens st)
  ∧ sessions (onerror sid st) = alter (with_ws None) sid (sessions st)
  ∧ sockets (onerror sid st) = sockets st
  ∧ inflight (onerror sid st) = inflight st
  ∧ authInProgress (onerror sid st) = authInProgress st
  ∧ log (onerror sid st)
    = log st ++ [OnError sid {| message := "Unknown error"; status := 500 |}].
Proof. intros Hs. unfold onerror. rewrite Hs. done. Qed.

(** What the [onclose] listener does to the state. *)
Lemma onclose_effect sid s code reason st :
  sessions st !! sid = Some s →
  connections (onclose sid code reason st)
  = delete (connectionKey s) (connections st)
  ∧ tokens (onclose sid code reason st) = tokens st
  ∧ sessions (onclose sid code reason st)
    = alter (with_ws None) sid (sessions st)
  ∧ sockets (onclose sid code reason st) = sockets st
  ∧ inflight (onclose sid code reason st) = inflight st
  ∧ authInProgress (onclose sid code reason st) = authInProgress st
  ∧ log (onclose sid code reason st)
    = log st ++
        (if (code =? 1000)%Z then []
         else [OnError sid
                 {| message := "Error closing the connection: " +:+ reason;
                    status := code |}]).
Proof.
  intros Hs. unfold onclose, NORMAL_CLOSURE. rewrite Hs.
  destruct (code =? 1000)%Z; simpl; by rewrite ?app_nil_r.
Qed.

Lemma socket_close_registry_inv k failed code reason st :
  registry_inv st → registry_inv (socket_close k failed code reason st).
Proof.
  intros Hinv. unfold socket_close.
  destruct (sockets st !! k) as [w|] eqn:Hw; [|done].
  destruct (decide (readyState w = CLOSED)) as [|Hopen]; [done|].
  set (st1 := upd_socket k (with_readyState CLOSED) st).
  assert (sockets st1 !! k = Some (with_readyState CLOSED w)) as Hw1.
  { subst st1. by rewrite lookup_upd_socket, Hw. }
  destruct (listeners w) as [sid|] eqn:Hl.
  2:{ rewrite (dispatch_no_listener k _ onerror st1 Hw1 Hl).
      rewrite (dispatch_no_listener k (with_readyState CLOSED w)); [| |done].
      2:{ by destruct failed. }
      assert (registry_inv st1); [|by destruct failed].
      apply closed_unregistered_registry_inv; [done|].
      intros K HK. destruct Hinv as [Hreg _].
      destruct (Hreg K k HK) as (w' & sid' & Hw' & _ & Hl' & _).
      congruence. }
  rewrite (dispatch_listener k _ sid onerror st1 Hw1 Hl).
  destruct (sessions st !! sid) as [s|] eqn:Hs.
  2:{ assert (onerror sid st1 = st1) as ->.
      { unfold onerror. subst st1. simpl. by rewrite Hs. }
      rewrite (dispatch_listener k (with_readyState CLOSED w) sid);
        [| |done].
      2:{ by destruct failed. }
      assert ((if failed then st1 else st1) = st1) as -> by by destruct failed.
      assert (onclose sid code reason st1 = st1) as ->.
      { unfold onclose. subst st1. simpl. by rewrite Hs. }
      apply closed_unregistered_registry_inv; [done|].
      intros K HK. destruct Hinv as [Hreg _].
      destruct (Hreg K k HK) as (w' & sid' & Hw' & _ & Hl' & Hsk').
      unfold session_key in Hsk'. simplify_eq. by rewrite Hs in Hsk'. }
  assert (session_key sid st = Some (connectionKey s)) as Hsk.
  { unfold session_key. by rewrite Hs. }
  assert (sessions st1 !! sid = Some s) as Hs1 by done.
  destruct failed.
  - destruct (onerror_effect sid s st1 Hs1) as (Ec & _ & Ess & Eso & Ei & _).
    assert (sessions (onerror sid st1) !! sid = Some (with_ws None s)) as Hs2.
    { by rewrite Ess, list_lookup_alter_eq, Hs1. }
    rewrite (dispatch_listener k (with_readyState CLOSED w) sid);
      [|by rewrite Eso|done].
    destruct (onclose_effect sid _ code reason _ Hs2)
      as (Fc & _ & Fss & Fso & Fi & _).
    apply (closed_registry_inv k w sid (connectionKey s) st); try done.
    + intros K. rewrite Fc, Ec. simpl. rewrite !delete_lookup_if.
      by destruct (decide (K = connectionKey s)).
    + by rewrite Fso, Eso.
    + by rewrite Fi, Ei.
    + intros i.
      rewrite (session_key_alter (with_ws None) sid i (onerror sid st1));
        [|done|done].
      by rewrite (session_key_alter (with_ws None) sid i st1).
  - rewrite (dispatch_listener k (with_readyState CLOSED w) sid); [|done..].
    destruct (onclose_effect sid _ code reason _ Hs1)
      as (Fc & _ & Fss & Fso & Fi & _).
    apply (closed_registry_inv k w sid (connectionKey s) st); try done.
    + intros K. rewrite Fc. simpl. by rewrite delete_lookup_if.
    + intros i. by rewrite (session_key_alter (with_ws None) sid i st1).
Qed.

Lemma token_response_registry_pending i answer st :
  registry_inv st →
  registry_pending (token_response i answer st).1
    (token_response i answer st).2.
Proof.
  intros Hinv. unfold token_response.
  destruct (inflight st !! i) as [r|] eqn:Hr;
    [|by apply registry_inv_pending].
  assert (session_key (rq_session r) st = Some (rq_key r)) as Hsk.
  { destruct Hinv as [_ Hreq]. apply Hreq. by eapply list_elem_of_lookup_2. }
  unfold getConnection_resume, connectionManager.refreshToken_resume.
  assert (registry_pending (set_inflight (delete i (inflight st)) st) [])
    as Hko.
  { apply registry_inv_pending. apply (registry_inv_mono st); try done.
    intros r' Hr'. by apply elem_of_delete_list in Hr'. }
  assert (registry_pending (set_inflight (delete i (inflight st)) st)
            [MtRejected (rq_session r)]) as Hrej.
  { apply (registry_pending_mono _ _ [] _ eq_refl eq_refl); try done.
    intros ??. by apply (elem_of_snoc_then _ _ _ []). }
  destruct answer as [v|]; [|exact Hrej].
  destruct (getToken_resume v) as [t|]; [|exact Hrej].
  pose proof (open_registry_pending (rq_app r) (rq_key r) t (rq_session r)
           (connectionManager.setAuthInProgress (rq_app r) false
              (set_timeouts
                 (timeouts st ++ [((now st + token_timeout_ms)%Z, rq_app r)])
                 (set_tokens (<[rq_app r:=t]> (tokens st))
                    (set_inflight (delete i (inflight st)) st)))) []) as Ho.
  cbn [fst snd] in *.
  destruct (getConnection_open _ _ _ _) as [c st3]. cbn [fst snd] in *.
  apply Ho.
  - by apply (registry_pending_mono
                (set_inflight (delete i (inflight st)) st) _ []).
  - exact Hsk.
  - intros sid' k Hin. by apply elem_of_nil in Hin.
Qed.

Lemma socket_open_registry_pending k st :
  registry_inv st →
  registry_pending (socket_open k st).1 (socket_open k st).2.
Proof.
  intros Hinv. unfold socket_open.
  destruct (sockets st !! k) as [w|] eqn:Hw; [|by apply registry_inv_pending].
  destruct (decide (readyState w = CONNECTING)) as [Hc|];
    [|by apply registry_inv_pending].
  assert (registry_inv (upd_socket k (with_readyState OPEN) st)) as H1.
  { destruct Hinv as [Hreg Hreq]. split; [|exact Hreq].
    intros K k' HK. change (connections st !! K = Some k') in HK.
    destruct (Hreg K k' HK) as (w' & sid' & Hw' & Hr' & Hl' & Hsk').
    destruct (decide (k = k')) as [<-|Hne].
    - exists (with_readyState OPEN w'), sid'.
      rewrite lookup_upd_socket, Hw'. done.
    - exists w', sid'. by rewrite lookup_upd_socket_ne. }
  apply registry_inv_pending in H1.
  destruct (listeners w) as [sid|]; [|done].
  by apply (onopen_registry_pending sid _ []).
Qed.

Lemma handle_registry_pending e st :
  registry_inv st → registry_pending (handle e st).1 (handle e st).2.
Proof.
  intros Hinv. pose proof (registry_inv_pending st Hinv) as Hp.
  destruct e as [a h|c m|c|cs|i answer|k|k failed code reason
                |k parsed|sid|i|dt]; cbn [handle fst snd].
  - by apply connect_registry_pending.
  - by apply (run_call_registry_pending (CallSend c m) st []).
  - by apply (run_call_registry_pending (CallClose c) st []).
  - by apply (run_calls_registry_pending cs st []).
  - by apply token_response_registry_pending.
  - by apply socket_open_registry_pending.
  - by apply registry_inv_pending, socket_close_registry_inv.
  - apply registry_inv_pending.
    unfold socket_message. destruct (sockets st !! k) as [w|]; [|done].
    destruct (decide _); [|done]. unfold dispatch.
    destruct (sockets st !! k) as [w1|]; [|done].
    destruct (listeners w1) as [sid|]; [|done]. unfold onmessage.
    destruct parsed as [data|]; [|done].
    destruct (get_prop data "status"); [|done].
    destruct (get_prop data "type"); [|done].
    destruct (_ && _); [|done]. by frame st.
  - by apply (throttle_elapsed_registry_pending sid st []).
  - apply registry_inv_pending.
    unfold token_timeout. destruct (timeouts st !! i) as [[due a]|]; [|done].
    destruct (due <=? now st)%Z; [|done]. by frame st.
  - apply registry_inv_pending.
    destruct (0 <=? dt)%Z; [|done]. by frame st.
Qed.

Lemma run_queue_cons t q st :
  run_queue (t :: q) st
  = ((run_queue q (run_microtask t st).1).1,
     (run_microtask t st).2 ++ (run_queue q (run_microtask t st).1).2).
Proof.
  simpl. destruct (run_microtask t st) as [st1 q1]. cbn [fst snd].
  by destruct (run_queue q st1).
Qed.

(** The callbacks [q] run; [q'] is what stays queued behind them. *)
Lemma run_queue_registry_pending q : ∀ st q',
  registry_pending st (q ++ q') → registry_pending (run_queue q st).1 q'.
Proof.
  induction q as [|t q IH]; intros st q' Hinv; [done|].
  rewrite run_queue_cons. cbn [fst snd]. apply IH.
  destruct t as [sid k|sid|sid]; cbn [run_microtask fst].
  - by apply reconnect_then_registry_pending.
  - apply (registry_pending_mono st _ ((MtRejected sid :: q) ++ q'));
      try done.
    intros ??. rewrite <- app_comm_cons, elem_of_cons. split; [by right|].
    by intros [?|?].
  - apply (registry_pending_mono st _ ((MtCatch sid :: q) ++ q'));
      try done.
    intros ??. rewrite <- app_comm_cons, elem_of_cons. split; [by right|].
    by intros [?|?].
Qed.

Lemma drain_registry_inv r : registry_pending r.1 r.2 → registry_inv (drain r).
Proof.
  destruct r as [st q]. cbn [fst snd]. intros Hinv. unfold drain.
  cbn [fst snd].
  pose proof (run_queue_registry_pending q st []) as H1.
  rewrite app_nil_r in H1. specialize (H1 Hinv).
  pose proof (run_queue_queues q st) as Hq.
  destruct (run_queue q st) as [st1 q1]. cbn [fst snd] in *.
  apply registry_pending_inv, run_queue_registry_pending.
  apply (registry_pending_mono st1 _ []); try done.
  intros sid k. rewrite app_nil_r. split.
  - intros Hin. rewrite Forall_forall in Hq.
    destruct (Hq _ Hin) as [sid' Heq]. discriminate Heq.
  - intros Hin. by apply elem_of_nil in Hin.
Qed.

Lemma step_registry_inv e st : registry_inv st → registry_inv (step e st).
Proof. intros Hinv. by apply drain_registry_inv, handle_registry_pending. Qed.

Lemma run_registry_inv evs : ∀ st, registry_inv st → registry_inv (run evs st).
Proof.
  induction evs as [|e evs IH]; intros st Hinv; [done|].
  simpl. apply IH. by apply step_registry_inv.
Qed.

Lemma init_registry_inv c : registry_inv (init c).
Proof.
  split; simpl.
  - intros K k HK. by rewrite lookup_empty in HK.
  - intros r Hr. by apply elem_of_nil in Hr.
Qed.

(** X1.  In every state the client can reach, a key of the registry names a
    socket that exists and is not closed, and the listeners of that socket
    are those of a session connected under this key: [getConnection] never
    hands out a closed or missing socket. *)
Theorem X1_registry_holds_live_sockets (c : config) (evs : list event)
    (K : string) (k : nat) :
  connections (run evs (init c)) !! K = Some k →
  ∃ w sid,
    sockets (run evs (init c)) !! k = Some w
    ∧ readyState w ≠ CLOSED
    ∧ listeners w = Some sid
    ∧ session_key sid (run evs (init c)) = Some K.
Proof.
  intros HK.
  by apply (proj1 (run_registry_inv evs (init c) (init_registry_inv c))).
Qed.

Lemma X1_registry_holds_live_sockets_witness :
  ∃ w sid,
    sockets demo_open !! 0 = Some w
    ∧ readyState w ≠ CLOSED
    ∧ listeners w = Some sid
    ∧ session_key sid demo_open = Some "K".
Proof.
  apply (X1_registry_holds_live_sockets demo_config
           [EvConnect "1-app" (demo_handler "K" (Some 0%Z));
            EvSend (Connection 0) (prompt "a");
            EvTokenResponse 0 (Some (JStr "tok"));
            EvSocketOpen 0] "K" 0).
  reflexivity.
Defined.

(** ** [connect] *)

(** X2.  [connect] itself does no input or output and touches nothing that
    exists: the registry, the token store, the flags, the sockets, the
    outstanding requests, the log and every session already there are as
    before.  A connection is only acquired by a later [send]. *)
Theorem X2_connect_is_passive (a : string) (h : handler) (st : state) :
  connections (connect a h st).2 = connections st
  ∧ tokens (connect a h st).2 = tokens st
  ∧ authInProgress (connect a h st).2 = authInProgress st
  ∧ sockets (connect a h st).2 = sockets st
  ∧ inflight (connect a h st).2 = inflight st
  ∧ log (connect a h st).2 = log st
  ∧ ∀ i s, sessions st !! i = Some s →
           sessions (connect a h st).2 !! i = Some s.
Proof.
  unfold connect.
  destruct (h_connectionKey h) as [key|]; simpl;
    destruct (default _ (h_clientOnly h) && _); simpl;
    repeat split; try done;
    intros i s0 Hi; by apply lookup_app_l_Some.
Qed.

(** X3.  Without a [window], [connect] returns the inert connection when
    [clientOnly] is set, and also when it is left out under React outside a
    browser; whatever is then sent or closed through that connection, the
    state stays as it is.  With a [window] the connection is never inert. *)
Theorem X3_inert_connection (a : string) (h : handler) (st : state) :
  (hasWindow (cfg st) = false →
   (h_clientOnly h = Some true
    ∨ (h_clientOnly h = None
       ∧ isReact (cfg st) = true ∧ isBrowser (cfg st) = false)) →
   (connect a h st).1 = NoOpConnection
   ∧ sessions (connect a h st).2 = sessions st
   ∧ ∀ evs, Forall inert_event evs →
            run evs (connect a h st).2 = (connect a h st).2)
  ∧ (hasWindow (cfg st) = true →
     (connect a h st).1 = Connection (length (sessions st))).
Proof.
  split.
  - intros Hw Hc.
    assert (default (isReact (cfg st) && negb (isBrowser (cfg st)))
              (h_clientOnly h) = true) as Hd.
    { destruct Hc as [->|(-> & -> & ->)]; done. }
    unfold connect. rewrite Hd.
    destruct (h_connectionKey h); simpl; rewrite Hw; simpl;
      (split; [done|]); (split; [done|]);
      intros evs Hevs; induction Hevs as [|e evs He _ IH]; try done;
      destruct e as [| [] | [] | | | | | | | |]; simpl in *; done.
  - intros Hw. unfold connect.
    destruct (h_connectionKey h); simpl; rewrite Hw, andb_false_r; done.
Qed.

Lemma X3_inert_connection_witness :
  let st :=
    init {| host := "gateway.alpha.fal.ai"; restApiUrl := "rest.alpha.fal.ai";
            isReact := true; isBrowser := false; hasWindow := false;
            websocketAccepts := λ _ _, true |} in
  let h := {| h_connectionKey := Some "K"; h_clientOnly := None;
              h_throttleInterval := None |} in
  (connect "1-app" h st).1 = NoOpConnection
  ∧ run [EvSend NoOpConnection (prompt "a"); EvClose NoOpConnection]
        (connect "1-app" h st).2
    = (connect "1-app" h st).2.
Proof.
  intros st h.
  destruct (proj1 (X3_inert_connection "1-app" h st) eq_refl
              (or_intror (conj eq_refl (conj eq_refl eq_refl))))
    as (H1 & _ & H3).
  split; [exact H1|]. apply H3. repeat constructor.
Defined.

Lemma X2_connect_is_passive_witness :
  sockets (connect "1-app" (demo_handler "K2" None) demo_open).2
  = sockets demo_open
  ∧ log (connect "1-app" (demo_handler "K2" None) demo_open).2
    = log demo_open
  ∧ session_key 0 (connect "1-app" (demo_handler "K2" None) demo_open).2
    = Some "K".
Proof.
  destruct (X2_connect_is_passive "1-app" (demo_handler "K2" None) demo_open)
    as (_ & _ & _ & Hs & _ & Hl & Hold).
  split; [exact Hs|]. split; [exact Hl|].
  unfold session_key.
  rewrite (Hold 0
             {| app := "1-app"; connectionKey := "K"; throttleInterval := 0;
                pendingMessage := None; reconnecting := false; ws := Some 0;
                window := None |} eq_refl).
  reflexivity.
Defined.

(** ** Reusing a registered socket *)


Lemma _send_reuse sid k s input st :
  sessions st !! sid = Some s →
  ws_open s st = None →
  reconnecting s = false →
  connectionManager.isAuthInProgress (app s) st = false →
  connections st !! connectionKey s = Some k →
  _send sid input st
  = (upd_session sid (with_reconnecting true)
       (upd_session sid (with_pendingMessage (Some input))
          (set_uuids (S (uuids st)) st)), [MtThen sid k]).
Proof.
  intros Hs Ho Hr Ha Hk. unfold _send. rewrite Hs. simpl.
  change (ws_open s (set_uuids (S (uuids st)) st)) with (ws_open s st).
  rewrite Ho, Hr. unfold reconnect.
  rewrite !lookup_upd_session. simpl. rewrite Hs. simpl.
  assert (ws_open
            (with_reconnecting true (with_pendingMessage (Some input) s))
            (upd_session sid (with_reconnecting true)
               (upd_session sid (with_pendingMessage (Some input))
                  (set_uuids (S (uuids st)) st))) = None) as ->.
  { exact Ho. }
  unfold connectionManager.isAuthInProgress in *. simpl. rewrite Ha.
  unfold getConnection, connectionManager.isAuthInProgress,
    connectionManager.has, connectionManager.get. simpl.
  rewrite Ha, Hk. rewrite bool_decide_true by eauto. done.
Qed.



(** X5.  An unthrottled session with no open socket of its own and no
    attempt under way ([reconnecting] unset), for whose application no
    authentication is in progress, sends while its key is registered to a
    socket that is already open, and takes that socket over.  No open
    event follows for the socket, so the message whose send made the
    session take it is not written.  A second message sent in a later task
    is written at once, and the first one stays in the slot with
    [reconnecting] still set.  A second message sent right after the
    first in the same task, before the [then] callback has run, finds [ws]
    unset: it replaces the first in the slot, and nothing is written for
    either. *)
Theorem X5_reuse_of_open_socket_strands_message (sid k : nat) (s : session)
    (w : WebSocket) (m1 m2 : json) (st : state) :
  sessions st !! sid = Some s →
  (throttleInterval s ≤ 0)%Z →
  ws_open s st = None →
  reconnecting s = false →
  connectionManager.isAuthInProgress (app s) st = false →
  connections st !! connectionKey s = Some k →
  sockets st !! k = Some w → readyState w = OPEN →
  let c := Connection sid in
  let st1 := step (EvSend c m1) st in
  let st2 := step (EvSend c m2) st1 in
  let stb := step (EvCalls [CallSend c m1; CallSend c m2]) st in
  (log st1 = log st
   ∧ session_ws sid st1 = Some k
   ∧ step (EvSocketOpen k) st1 = st1
   ∧ log st2 = log st ++ [WsSend k ("uuid-" +:+ pretty (S (uuids st))) m2]
   ∧ session_pending sid st2 = Some m1
   ∧ session_reconnecting sid st2 = Some true)
  ∧ (log stb = log st
     ∧ session_ws sid stb = Some k
     ∧ step (EvSocketOpen k) stb = stb
     ∧ session_pending sid stb = Some m2
     ∧ session_reconnecting sid stb = Some true).
Proof.
  intros Hs Hi Ho Hr Ha Hk Hw Hopen c st1 st2 stb.
  assert (∀ X, sockets X !! k = Some (with_listeners (Some sid) w) →
               step (EvSocketOpen k) X = X) as Hnoop.
  { intros X HX. unfold step, handle, socket_open. rewrite HX.
    change (readyState (with_listeners (Some sid) w)) with (readyState w).
    rewrite decide_False; [done|]. rewrite Hopen. discriminate. }
  set (X1 := upd_session sid (with_reconnecting true)
               (upd_session sid (with_pendingMessage (Some m1))
                  (set_uuids (S (uuids st)) st))).
  assert (send sid m1 st = (X1, [MtThen sid k])) as E1.
  { rewrite (send_unthrottled sid s) by done. by apply (_send_reuse sid k s). }
  assert (st1 = reconnect_then sid k X1) as ->.
  { subst st1 c. unfold step, handle, connection_send. by rewrite E1. }
  split.
  - assert (sockets (reconnect_then sid k X1) !! k
            = Some (with_listeners (Some sid) w)) as Hsk
      by (simpl; by rewrite list_lookup_alter_eq, Hw).
    assert (sessions (reconnect_then sid k X1) !! sid
            = Some (with_ws (Some k)
                      (with_reconnecting true
                         (with_pendingMessage (Some m1) s)))) as Hss
      by (simpl; by rewrite !list_lookup_alter_eq, Hs).
    assert (st2
            = emit (WsSend k ("uuid-" +:+ pretty (S (uuids st))) m2)
                (set_uuids (S (S (uuids st))) (reconnect_then sid k X1)))
      as ->.
    { subst st2 c. unfold step, handle, connection_send.
      rewrite (send_unthrottled sid _ m2 _ Hss) by done.
      rewrite (_send_open sid _ k m2 _ Hss); [reflexivity|].
      unfold ws_open. simpl. rewrite list_lookup_alter_eq, Hw. simpl.
      by rewrite decide_True. }
    split; [reflexivity|].
    split; [unfold session_ws; by rewrite Hss|].
    split; [by apply Hnoop|].
    split; [reflexivity|].
    split.
    + unfold session_pending. simpl.
      rewrite !list_lookup_alter_eq, Hs. done.
    + unfold session_reconnecting. simpl.
      rewrite !list_lookup_alter_eq, Hs. done.
  - assert (sessions X1 !! sid
            = Some (with_reconnecting true
                      (with_pendingMessage (Some m1) s))) as Hs1
      by (simpl; by rewrite !list_lookup_alter_eq, Hs).
    set (X2 := upd_session sid (with_pendingMessage (Some m2))
                 (set_uuids (S (uuids X1)) X1)).
    assert (send sid m2 X1 = (X2, [])) as E2.
    { rewrite (send_unthrottled sid _ m2 _ Hs1) by done.
      by apply (_send_while_reconnecting sid _ m2 X1 Hs1). }
    assert (stb = reconnect_then sid k X2) as ->.
    { subst stb c. unfold step, handle, run_calls, run_call, connection_send.
      by rewrite E1, E2. }
    split; [reflexivity|].
    split.
    { unfold session_ws. simpl. rewrite !list_lookup_alter_eq, Hs. done. }
    split.
    { apply Hnoop. simpl. by rewrite list_lookup_alter_eq, Hw. }
    split.
    + unfold session_pending. simpl.
      rewrite !list_lookup_alter_eq, Hs. done.
    + unfold session_reconnecting. simpl.
      rewrite !list_lookup_alter_eq, Hs. done.
Qed.

Lemma X5_reuse_of_open_socket_strands_message_witness :
  let c := Connection 1 in
  let st2 := run [EvSend c (prompt "b"); EvSend c (prompt "c")] demo_shared in
  let stb :=
    step (EvCalls [CallSend c (prompt "b"); CallSend c (prompt "c")])
      demo_shared in
  (log st2 = log demo_shared ++ [WsSend 0 "uuid-3" (prompt "c")]
   ∧ session_pending 1 st2 = Some (prompt "b"))
  ∧ (log stb = log demo_shared
     ∧ session_pending 1 stb = Some (prompt "c")
     ∧ step (EvSocketOpen 0) stb = stb).
Proof.
  destruct (X5_reuse_of_open_socket_strands_message 1 0
              {| app := "1-app"; connectionKey := "K"; throttleInterval := 0;
                 pendingMessage := None; reconnecting := false; ws := None;
                 window := None |}
              {| readyState := OPEN;
                 ws_url := "wss://1-app.gateway.alpha.fal.ai/ws";
                 ws_token := JStr "tok"; listeners := Some 0 |}
              (prompt "b") (prompt "c") demo_shared
              ltac:(vm_compute; reflexivity) ltac:(vm_compute; discriminate)
              ltac:(vm_compute; reflexivity) ltac:(vm_compute; reflexivity)
              ltac:(vm_compute; reflexivity) ltac:(vm_compute; reflexivity)
              ltac:(vm_compute; reflexivity) ltac:(vm_compute; reflexivity))
    as ((_ & _ & _ & H2 & H3 & _) & (L1 & _ & L3 & L4 & _)).
  split; [split; [exact H2|exact H3]|].
  split; [exact L1|]. split; [exact L4|exact L3].
Defined.

(** ** Failures *)

(** X6.  When a socket is failed (an error event, then the close event),
    the session that listens on it loses the cached token of its
    application and the registry entry of its key, its [ws] is cleared,
    and [onError] is called with status 500 and then, unless the close code
    is 1000, with the close code.  [reconnecting] is left as it was. *)
Theorem X6_failed_socket (k sid : nat) (w : WebSocket) (s : session)
    (code : Z) (reason : string) (st : state) :
  sockets st !! k = Some w → readyState w ≠ CLOSED →
  listeners w = Some sid → sessions st !! sid = Some s →
  let st' := step (EvSocketClose k true code reason) st in
  tokens st' = delete (app s) (tokens st)
  ∧ connections st' !! connectionKey s = None
  ∧ session_ws sid st' = None
  ∧ session_reconnecting sid st' = Some (reconnecting s)
  ∧ readyState <$> sockets st' !! k = Some CLOSED
  ∧ log st'
    = log st
        ++ [OnError sid {| message := "Unknown error"; status := 500 |}]
        ++ (if (code =? 1000)%Z then []
            else [OnError sid
                    {| message := "Error closing the connection: " +:+ reason;
                       status := code |}]).
Proof.
  intros Hw Hopen Hl Hs st'. subst st'.
  change (step (EvSocketClose k true code reason) st)
    with (socket_close k true code reason st).
  unfold socket_close. rewrite Hw, decide_False by done.
  set (st1 := upd_socket k (with_readyState CLOSED) st).
  assert (sockets st1 !! k = Some (with_readyState CLOSED w)) as Hw1.
  { subst st1. by rewrite lookup_upd_socket, Hw. }
  assert (sessions st1 !! sid = Some s) as Hs1 by done.
  rewrite (dispatch_listener k _ sid onerror st1 Hw1 Hl).
  destruct (onerror_effect sid s st1 Hs1)
    as (Ec & Et & Ess & Eso & Ei & Ea & El).
  assert (sessions (onerror sid st1) !! sid = Some (with_ws None s)) as Hs2.
  { by rewrite Ess, list_lookup_alter_eq, Hs1. }
  rewrite (dispatch_listener k (with_readyState CLOSED w) sid);
    [|by rewrite Eso|done].
  destruct (onclose_effect sid _ code reason _ Hs2)
    as (Fc & Ft & Fss & Fso & Fi & Fa & Fl).
  split; [by rewrite Ft, Et|].
  split; [rewrite Fc; apply lookup_delete_eq|].
  split; [unfold session_ws; by rewrite Fss, list_lookup_alter_eq, Hs2|].
  split; [unfold session_reconnecting;
          by rewrite Fss, list_lookup_alter_eq, Hs2|].
  split; [by rewrite Fso, Eso, Hw1|].
  by rewrite Fl, El, <- app_assoc.
Qed.

Lemma X6_failed_socket_witness :
  let st' := step (EvSocketClose 0 true 1006 "timeout") demo_open in
  tokens st' = delete "1-app" (tokens demo_open)
  ∧ connections st' !! "K" = None
  ∧ log st'
    = log demo_open
        ++ [OnError 0 {| message := "Unknown error"; status := 500 |}]
        ++ [OnError 0
              {| message := "Error closing the connection: " +:+ "timeout";
                 status := 1006 |}].
Proof.
  destruct (X6_failed_socket 0 0
              {| readyState := OPEN;
                 ws_url := "wss://1-app.gateway.alpha.fal.ai/ws";
                 ws_token := JStr "tok"; listeners := Some 0 |}
              {| app := "1-app"; connectionKey := "K"; throttleInterval := 0;
                 pendingMessage := None; reconnecting := false; ws := Some 0;
                 window := None |}
              1006 "timeout" demo_open
              ltac:(vm_compute; reflexivity) ltac:(discriminate)
              ltac:(vm_compute; reflexivity) ltac:(vm_compute; reflexivity))
    as (H1 & H2 & _ & _ & _ & H6).
  split; [exact H1|]. split; [exact H2|exact H6].
Defined.

(** X7.  When the token request of an attempt is rejected, or answers
    [null], the only effects are one [onError] call with status 500 to the
    session that made the attempt and the request leaving the outstanding
    ones: no token is stored, no socket is made, nothing is registered. *)
Theorem X7_token_failure (i : nat) (r : token_request)
    (answer : option json) (st : state) :
  inflight st !! i = Some r →
  answer = None ∨ answer = Some JNull →
  step (EvTokenResponse i answer) st
  = emit (OnError (rq_session r)
            {| message := "Error opening connection"; status := 500 |})
      (set_inflight (delete i (inflight st)) st).
Proof.
  intros Hr Ha. unfold step, handle, token_response. rewrite Hr.
  by destruct Ha as [-> | ->].
Qed.

Lemma X7_token_failure_witness :
  step (EvTokenResponse 0 (Some JNull)) demo_refresh_started
  = emit (OnError 0
            {| message := "Error opening connection"; status := 500 |})
      (set_inflight [] demo_refresh_started).
Proof.
  apply (X7_token_failure 0
           {| rq_app := "1-app"; rq_key := "K"; rq_session := 0 |}
           (Some JNull) demo_refresh_started
           ltac:(vm_compute; reflexivity)).
  by right.
Defined.

(** X8.  A token answer wrapped in an object, with the token as a
    non-empty string under [detail], is handled exactly as the bare token
    string. *)
Theorem X8_wrapped_token_answer (i : nat) (fields : list (string * json))
    (t : string) (st : state) :
  assoc "detail" fields = Some (JStr t) → t ≠ "" →
  step (EvTokenResponse i (Some (JObj fields))) st
  = step (EvTokenResponse i (Some (JStr t))) st.
Proof.
  intros Hd Ht. unfold step, handle, token_response.
  destruct (inflight st !! i) as [r|]; [|done].
  unfold getConnection_resume, connectionManager.refreshToken_resume.
  assert (getToken_resume (JObj fields) = Normal (JStr t)) as ->.
  { unfold getToken_resume. simpl. rewrite Hd. simpl.
    destruct (String.eqb t "") eqn:E; [|done].
    by apply String.eqb_eq in E. }
  done.
Qed.

Lemma X8_wrapped_token_answer_witness :
  step (EvTokenResponse 0 (Some (JObj [("detail", JStr "tok")])))
    demo_refresh_started
  = step (EvTokenResponse 0 (Some (JStr "tok"))) demo_refresh_started.
Proof.
  apply (X8_wrapped_token_answer 0 [("detail", JStr "tok")] "tok"
           demo_refresh_started eq_refl).
  discriminate.
Defined.

(** ** Acquiring a connection *)

Lemma _send_refresh sid s input st :
  sessions st !! sid = Some s →
  ws_open s st = None →
  reconnecting s = false →
  connectionManager.isAuthInProgress (app s) st = false →
  connections st !! connectionKey s = None →
  truthy_opt (tokens st !! app s) = false →
  _send sid input st
  = (set_inflight
       (inflight st ++
          [{| rq_app := app s; rq_key := connectionKey s;
              rq_session := sid |}])
       (connectionManager.refreshToken (app s)
          (connectionManager.setAuthInProgress (app s) true
             (upd_session sid (with_reconnecting true)
                (upd_session sid (with_pendingMessage (Some input))
                   (set_uuids (S (uuids st)) st))))), []).
Proof.
  intros Hs Ho Hr Ha Hk Ht. unfold _send. rewrite Hs. simpl.
  change (ws_open s (set_uuids (S (uuids st)) st)) with (ws_open s st).
  rewrite Ho, Hr. unfold reconnect.
  rewrite !lookup_upd_session. simpl. rewrite Hs. simpl.
  assert (ws_open
            (with_reconnecting true (with_pendingMessage (Some input) s))
            (upd_session sid (with_reconnecting true)
               (upd_session sid (with_pendingMessage (Some input))
                  (set_uuids (S (uuids st)) st))) = None) as ->.
  { exact Ho. }
  unfold connectionManager.isAuthInProgress in *. simpl. rewrite Ha.
  unfold getConnection, connectionManager.isAuthInProgress,
    connectionManager.has, connectionManager.get,
    connectionManager.token. simpl.
  rewrite Ha, Hk. rewrite bool_decide_false by by intros [? ?].
  destruct (tokens st !! app s) as [t|]; simpl in Ht; [|done].
  by rewrite Ht.
Qed.

Lemma _send_cached sid s t input st :
  sessions st !! sid = Some s →
  ws_open s st = None →
  reconnecting s = false →
  connectionManager.isAuthInProgress (app s) st = false →
  connections st !! connectionKey s = None →
  tokens st !! app s = Some t → truthy t = true →
  websocketAccepts (cfg st) (buildRealtimeUrl (app s) st) t = true →
  _send sid input st
  = ((getConnection_open (app s) (connectionKey s) t
        (upd_session sid (with_reconnecting true)
           (upd_session sid (with_pendingMessage (Some input))
              (set_uuids (S (uuids st)) st)))).2,
     [MtThen sid (length (sockets st))]).
Proof.
  intros Hs Ho Hr Ha Hk Ht Htt Hacc. unfold _send. rewrite Hs. simpl.
  change (ws_open s (set_uuids (S (uuids st)) st)) with (ws_open s st).
  rewrite Ho, Hr. unfold reconnect.
  rewrite !lookup_upd_session. simpl. rewrite Hs. simpl.
  assert (ws_open
            (with_reconnecting true (with_pendingMessage (Some input) s))
            (upd_session sid (with_reconnecting true)
               (upd_session sid (with_pendingMessage (Some input))
                  (set_uuids (S (uuids st)) st))) = None) as ->.
  { exact Ho. }
  unfold connectionManager.isAuthInProgress in *. simpl. rewrite Ha.
  unfold getConnection, connectionManager.isAuthInProgress,
    connectionManager.has, connectionManager.get,
    connectionManager.token. simpl.
  rewrite Ha, Hk. rewrite bool_decide_false by by intros [? ?].
  rewrite Ht, Htt. unfold getConnection_open.
  change (websocketAccepts (cfg st) (buildRealtimeUrl (app s) st) t)
    with (websocketAccepts
            (cfg (upd_session sid (with_reconnecting true)
                    (upd_session sid (with_pendingMessage (Some input))
                       (set_uuids (S (uuids st)) st))))
            (buildRealtimeUrl (app s)
               (upd_session sid (with_reconnecting true)
                  (upd_session sid (with_pendingMessage (Some input))
                     (set_uuids (S (uuids st)) st)))) t) in Hacc.
  by rewrite Hacc.
Qed.

Lemma alter_last {A} (f : A → A) (l : list A) x :
  alter f (length l) (l ++ [x]) = l ++ [f x].
Proof.
  rewrite alter_app_r_alt by done. by rewrite Nat.sub_diag.
Qed.

Lemma _send_cached_effect (sid : nat) (s : session) (t : json)
    (input : json) (st : state) :
  sessions st !! sid = Some s →
  ws_open s st = None →
  reconnecting s = false →
  connectionManager.isAuthInProgress (app s) st = false →
  connections st !! connectionKey s = None →
  tokens st !! app s = Some t → truthy t = true →
  websocketAccepts (cfg st) (buildRealtimeUrl (app s) st) t = true →
  let st' := drain (_send sid input st) in
  sockets st'
  = sockets st ++
      [{| readyState := CONNECTING;
          ws_url := "wss://" +:+ app s +:+ "." +:+ host (cfg st) +:+ "/ws";
          ws_token := t; listeners := Some sid |}]
  ∧ connections st'
    = <[connectionKey s := length (sockets st)]> (connections st)
  ∧ log st' = log st
  ∧ inflight st' = inflight st
  ∧ tokens st' = tokens st
  ∧ session_ws sid st' = Some (length (sockets st))
  ∧ session_pending sid st' = Some input.
Proof.
  intros Hs Ho Hr Ha Hk Ht Htt Hacc st'. subst st'.
  rewrite (_send_cached sid s t input st) by done.
  rewrite drain_then. unfold getConnection_open.
  change (websocketAccepts (cfg st) (buildRealtimeUrl (app s) st) t)
    with (websocketAccepts
            (cfg (upd_session sid (with_reconnecting true)
                    (upd_session sid (with_pendingMessage (Some input))
                       (set_uuids (S (uuids st)) st))))
            (buildRealtimeUrl (app s)
               (upd_session sid (with_reconnecting true)
                  (upd_session sid (with_pendingMessage (Some input))
                     (set_uuids (S (uuids st)) st)))) t) in Hacc.
  rewrite Hacc.
  split; [|split; [done|split; [done|split; [done|split; [done|split]]]]].
  - change (alter (with_listeners (Some sid)) (length (sockets st))
              (sockets st ++
                 [{| readyState := CONNECTING;
                     ws_url := buildRealtimeUrl (app s) st;
                     ws_token := t; listeners := None |}])
            = sockets st ++
                [{| readyState := CONNECTING;
                    ws_url := buildRealtimeUrl (app s) st;
                    ws_token := t; listeners := Some sid |}]).
    by rewrite alter_last.
  - unfold session_ws. simpl. by rewrite !list_lookup_alter_eq, Hs.
  - unfold session_pending. simpl. by rewrite !list_lookup_alter_eq, Hs.
Qed.

(** X10.  An unthrottled session sends a message while it has no open
    socket, no attempt under way ([reconnecting] unset), no authentication
    in progress for its application, nothing under its key in the
    registry, a token in the store, and a URL that [new WebSocket]
    accepts.  It makes no token request: one socket is made for
    [wss://app.host/ws] with the stored token, registered under the key
    and listened to by the session, and the message waits in the slot. *)
Theorem X10_acquire_with_cached_token (sid : nat) (s : session) (t : json)
    (input : json) (st : state) :
  sessions st !! sid = Some s →
  (throttleInterval s ≤ 0)%Z →
  ws_open s st = None →
  reconnecting s = false →
  connectionManager.isAuthInProgress (app s) st = false →
  connections st !! connectionKey s = None →
  tokens st !! app s = Some t → truthy t = true →
  websocketAccepts (cfg st) (buildRealtimeUrl (app s) st) t = true →
  let st' := step (EvSend (Connection sid) input) st in
  sockets st'
  = sockets st ++
      [{| readyState := CONNECTING;
          ws_url := "wss://" +:+ app s +:+ "." +:+ host (cfg st) +:+ "/ws";
          ws_token := t; listeners := Some sid |}]
  ∧ connections st'
    = <[connectionKey s := length (sockets st)]> (connections st)
  ∧ log st' = log st
  ∧ inflight st' = inflight st
  ∧ tokens st' = tokens st
  ∧ session_ws sid st' = Some (length (sockets st))
  ∧ session_pending sid st' = Some input.
Proof.
  intros Hs Hi Ho Hr Ha Hk Ht Htt Hacc st'. subst st'.
  unfold step, handle, connection_send.
  rewrite (send_unthrottled sid s) by done.
  by apply (_send_cached_effect sid s t).
Qed.

Lemma X10_acquire_with_cached_token_witness :
  let st' := step (EvSend (Connection 1) (prompt "b")) demo_second in
  sockets st'
  = sockets demo_second ++
      [{| readyState := CONNECTING;
          ws_url := "wss://" +:+ "1-app" +:+ "." +:+ "gateway.alpha.fal.ai"
                    +:+ "/ws";
          ws_token := JStr "tok"; listeners := Some 1 |}]
  ∧ log st' = log demo_second.
Proof.
  destruct (X10_acquire_with_cached_token 1
              {| app := "1-app"; connectionKey := "K2"; throttleInterval := 0;
                 pendingMessage := None; reconnecting := false; ws := None;
                 window := None |}
              (JStr "tok") (prompt "b") demo_second
              ltac:(vm_compute; reflexivity) ltac:(vm_compute; discriminate)
              ltac:(vm_compute; reflexivity) ltac:(vm_compute; reflexivity)
              ltac:(vm_compute; reflexivity) ltac:(vm_compute; reflexivity)
              ltac:(vm_compute; reflexivity) ltac:(vm_compute; reflexivity)
              ltac:(vm_compute; reflexivity))
    as (H1 & _ & H3 & _).
  split; [exact H1|exact H3].
Defined.

Lemma onclose_cfg sid code reason st :
  cfg (onclose sid code reason st) = cfg st.
Proof.
  unfold onclose. destruct (sessions st !! sid); [|done].
  by destruct (negb (code =? NORMAL_CLOSURE)%Z).
Qed.

Lemma onerror_cfg sid st : cfg (onerror sid st) = cfg st.
Proof. unfold onerror. by destruct (sessions st !! sid). Qed.

Lemma dispatch_cfg k f st :
  (∀ sid st0, cfg (f sid st0) = cfg st0) → cfg (dispatch k f st) = cfg st.
Proof.
  intros Hf. unfold dispatch. destruct (sockets st !! k) as [w|]; [|done].
  destruct (listeners w); [apply Hf|done].
Qed.

Lemma socket_close_cfg k failed code reason st :
  cfg (socket_close k failed code reason st) = cfg st.
Proof.
  unfold socket_close. destruct (sockets st !! k) as [w|]; [|done].
  destruct (decide _); [done|].
  rewrite dispatch_cfg by (intros; apply onclose_cfg).
  destruct failed; [|done].
  by rewrite dispatch_cfg by (intros; apply onerror_cfg).
Qed.

(** The open event of the socket an unthrottled session holds as its [ws]
    and listens on: [reconnecting] is cleared; the rest of the session, the
    registry, the token store and the requests are as before. *)
Lemma socket_open_own sid k s w st :
  sessions st !! sid = Some s → (throttleInterval s ≤ 0)%Z →
  ws s = Some k →
  sockets st !! k = Some w → readyState w = CONNECTING →
  listeners w = Some sid →
  let st' := step (EvSocketOpen k) st in
  (∃ s', sessions st' !! sid = Some s'
         ∧ reconnecting s' = false ∧ ws s' = Some k
         ∧ app s' = app s ∧ connectionKey s' = connectionKey s
         ∧ throttleInterval s' = throttleInterval s)
  ∧ sockets st' = alter (with_readyState OPEN) k (sockets st)
  ∧ connections st' = connections st
  ∧ tokens st' = tokens st
  ∧ authInProgress st' = authInProgress st
  ∧ inflight st' = inflight st
  ∧ cfg st' = cfg st.
Proof.
  intros Hs Hi Hk Hw Hc Hl st'. subst st'. unfold step, handle.
  unfold socket_open. rewrite Hw, decide_True by done. rewrite Hl.
  unfold onopen. rewrite lookup_upd_session.
  change (sessions (upd_socket k (with_readyState OPEN) st)) with (sessions st).
  rewrite Hs. simpl.
  destruct (pendingMessage s) as [m|] eqn:Hp.
  2:{ rewrite drain_nil. split; [|done]. eexists. split.
      - simpl. by rewrite list_lookup_alter_eq, Hs.
      - done. }
  destruct (truthy m).
  2:{ rewrite drain_nil. split; [|done]. eexists. split.
      - simpl. by rewrite list_lookup_alter_eq, Hs.
      - done. }
  erewrite send_unthrottled.
  2:{ rewrite lookup_upd_session.
      change (sessions (upd_socket k (with_readyState OPEN) st))
        with (sessions st).
      rewrite Hs. reflexivity. }
  2:{ exact Hi. }
  erewrite _send_open.
  2:{ rewrite lookup_upd_session.
      change (sessions (upd_socket k (with_readyState OPEN) st))
        with (sessions st).
      rewrite Hs. reflexivity. }
  2:{ unfold ws_open. simpl. rewrite Hk.
      rewrite list_lookup_alter_eq, Hw. simpl. reflexivity. }
  rewrite drain_nil. split; [|done]. eexists. split.
  - simpl. by rewrite !list_lookup_alter_eq, Hs.
  - done.
Qed.

Lemma alter_readyState_twice r1 r2 k (l : list WebSocket) :
  alter (with_readyState r1) k (alter (with_readyState r2) k l)
  = alter (with_readyState r1) k l.
Proof.
  apply list_eq. intros i. destruct (decide (k = i)) as [->|Hne].
  - rewrite !list_lookup_alter_eq. by destruct (l !! i).
  - by rewrite !list_lookup_alter_ne.
Qed.

(** X12.  The socket of an unthrottled session opens and later closes,
    without an error event and with any close code.  The next message of
    that session, sent while no authentication is in progress for its
    application, a token is still in the store and [new WebSocket] accepts
    the URL, acquires a new connection: a new socket is made at once,
    registered under the key and listened to by the session, no token
    request is made, and the message waits in the slot for the socket to
    open. *)
Theorem X12_reacquire_after_close (sid k : nat) (s : session)
    (w : WebSocket) (t : json) (code : Z) (reason : string) (input : json)
    (st : state) :
  sessions st !! sid = Some s → (throttleInterval s ≤ 0)%Z →
  ws s = Some k →
  sockets st !! k = Some w → readyState w = CONNECTING →
  listeners w = Some sid →
  connectionManager.isAuthInProgress (app s) st = false →
  tokens st !! app s = Some t → truthy t = true →
  websocketAccepts (cfg st) (buildRealtimeUrl (app s) st) t = true →
  let st0 := step (EvSocketOpen k) st in
  let st1 := step (EvSocketClose k false code reason) st0 in
  let st2 := step (EvSend (Connection sid) input) st1 in
  sockets st2
  = alter (with_readyState CLOSED) k (sockets st) ++
      [{| readyState := CONNECTING;
          ws_url := "wss://" +:+ app s +:+ "." +:+ host (cfg st) +:+ "/ws";
          ws_token := t; listeners := Some sid |}]
  ∧ connections st2 !! connectionKey s = Some (length (sockets st))
  ∧ log st2 = log st1
  ∧ inflight st2 = inflight st
  ∧ session_ws sid st2 = Some (length (sockets st))
  ∧ session_pending sid st2 = Some input.
Proof.
  intros Hs Hi Hk Hw Hc Hl Ha Ht Htt Hacc st0 st1 st2.
  destruct (socket_open_own sid k s w st Hs Hi Hk Hw Hc Hl)
    as ((s' & Hs0 & Hr0 & Hk0 & Happ & Hkey & Hthr)
        & Oso & Oc & Ot & Oa & Oi & Ocfg).
  fold st0 in Hs0, Oso, Oc, Ot, Oa, Oi, Ocfg.
  assert (sockets st0 !! k = Some (with_readyState OPEN w)) as Hw0.
  { by rewrite Oso, list_lookup_alter_eq, Hw. }
  assert (st1 = onclose sid code reason
                  (upd_socket k (with_readyState CLOSED) st0)) as E1.
  { subst st1.
    change (step (EvSocketClose k false code reason) st0)
      with (socket_close k false code reason st0).
    unfold socket_close. rewrite Hw0, decide_False by done.
    rewrite (dispatch_listener k
               (with_readyState CLOSED (with_readyState OPEN w)) sid);
      [done| |done].
    by rewrite lookup_upd_socket, Hw0. }
  destruct (onclose_effect sid s' code reason
              (upd_socket k (with_readyState CLOSED) st0) Hs0)
    as (Fc & Ft & Fss & Fso & Fi & Fa & Fl).
  assert (cfg st1 = cfg st) as Fcfg.
  { rewrite E1, onclose_cfg. exact Ocfg. }
  rewrite <- E1 in Fc, Ft, Fss, Fso, Fi, Fa, Fl. clear E1.
  change (connections (upd_socket k (with_readyState CLOSED) st0))
    with (connections st0) in Fc.
  change (tokens (upd_socket k (with_readyState CLOSED) st0))
    with (tokens st0) in Ft.
  change (sessions (upd_socket k (with_readyState CLOSED) st0))
    with (sessions st0) in Fss.
  change (sockets (upd_socket k (with_readyState CLOSED) st0))
    with (alter (with_readyState CLOSED) k (sockets st0)) in Fso.
  change (inflight (upd_socket k (with_readyState CLOSED) st0))
    with (inflight st0) in Fi.
  change (authInProgress (upd_socket k (with_readyState CLOSED) st0))
    with (authInProgress st0) in Fa.
  rewrite Oso, alter_readyState_twice in Fso.
  assert (sessions st1 !! sid = Some (with_ws None s')) as Hs1.
  { by rewrite Fss, list_lookup_alter_eq, Hs0. }
  assert (st2 = drain (_send sid input st1)) as E2.
  { subst st2. unfold step at 1. unfold handle, connection_send.
    rewrite (send_unthrottled sid (with_ws None s') input st1 Hs1);
      [done|]. simpl. by rewrite Hthr. }
  destruct (_send_cached_effect sid (with_ws None s') t input st1)
    as (G1 & G2 & G3 & G4 & G5 & G6 & G7).
  - exact Hs1.
  - done.
  - exact Hr0.
  - unfold connectionManager.isAuthInProgress in *. simpl.
    by rewrite Happ, Fa, Oa.
  - simpl. rewrite Fc, Hkey. apply lookup_delete_eq.
  - simpl. by rewrite Happ, Ft, Ot.
  - done.
  - unfold buildRealtimeUrl. simpl. rewrite Happ, Fcfg. exact Hacc.
  - rewrite <- E2 in G1, G2, G3, G4, G5, G6, G7.
    assert (length (sockets st1) = length (sockets st)) as Hlen.
    { rewrite Fso. apply length_alter. }
    rewrite Hlen in *. simpl in G1, G2. rewrite Happ, Fcfg in G1.
    rewrite Hkey in G2.
    split; [by rewrite G1, Fso|].
    split; [rewrite G2; apply lookup_insert_eq|].
    split; [done|]. split; [by rewrite G4, Fi, Oi|]. done.
Qed.

Lemma X12_reacquire_after_close_witness :
  let st1 := run [EvSocketOpen 0; EvSocketClose 0 false 1006 "timeout"]
               demo_falsy in
  let st2 := step (EvSend (Connection 0) (prompt "b")) st1 in
  connections st2 !! "K" = Some 1
  ∧ log st2 = log st1
  ∧ session_pending 0 st2 = Some (prompt "b").
Proof.
  destruct (X12_reacquire_after_close 0 0
              {| app := "1-app"; connectionKey := "K"; throttleInterval := 0;
                 pendingMessage := Some (JNum 0); reconnecting := true;
                 ws := Some 0; window := None |}
              {| readyState := CONNECTING;
                 ws_url := "wss://1-app.gateway.alpha.fal.ai/ws";
                 ws_token := JStr "tok"; listeners := Some 0 |}
              (JStr "tok") 1006 "timeout" (prompt "b") demo_falsy
              ltac:(vm_compute; reflexivity) ltac:(vm_compute; discriminate)
              ltac:(vm_compute; reflexivity) ltac:(vm_compute; reflexivity)
              ltac:(vm_compute; reflexivity) ltac:(vm_compute; reflexivity)
              ltac:(vm_compute; reflexivity) ltac:(vm_compute; reflexivity)
              ltac:(vm_compute; reflexivity) ltac:(vm_compute; reflexivity))
    as (_ & H2 & H3 & _ & _ & H6).
  split; [exact H2|]. split; [exact H3|exact H6].
Defined.

(** The answer to a token request that yields a token: the token is
    stored, its timer set and the flag cleared; then [new WebSocket]
    either makes the socket, which is registered and handed to the [then]
    callback of the session, or throws, and the [catch] callback runs. *)
Lemma step_token_accepted i r answer t st :
  inflight st !! i = Some r →
  getToken_resume answer = Normal t →
  websocketAccepts (cfg st) (buildRealtimeUrl (rq_app r) st) t = true →
  step (EvTokenResponse i (Some answer)) st
  = reconnect_then (rq_session r) (length (sockets st))
      (connectionManager.set (rq_key r) (length (sockets st))
         (set_sockets
            (sockets st ++
               [{| readyState := CONNECTING;
                   ws_url := buildRealtimeUrl (rq_app r) st;
                   ws_token := t; listeners := None |}])
            (connectionManager.setAuthInProgress (rq_app r) false
               (set_timeouts
                  (timeouts st ++ [((now st + token_timeout_ms)%Z, rq_app r)])
                  (set_tokens (<[rq_app r := t]> (tokens st))
                     (set_inflight (delete i (inflight st)) st)))))).
Proof.
  intros Hr Hans Hacc. unfold step, handle, token_response. rewrite Hr.
  unfold getConnection_resume, connectionManager.refreshToken_resume.
  rewrite Hans. unfold getConnection_open.
  match goal with
  | |- context [websocketAccepts ?c ?u t] =>
      change (websocketAccepts c u t)
        with (websocketAccepts (cfg st) (buildRealtimeUrl (rq_app r) st) t)
  end.
  rewrite Hacc. reflexivity.
Qed.

Lemma step_token_refused i r answer t st :
  inflight st !! i = Some r →
  getToken_resume answer = Normal t →
  websocketAccepts (cfg st) (buildRealtimeUrl (rq_app r) st) t = false →
  step (EvTokenResponse i (Some answer)) st
  = reconnect_catch (rq_session r)
      (connectionManager.setAuthInProgress (rq_app r) false
         (set_timeouts
            (timeouts st ++ [((now st + token_timeout_ms)%Z, rq_app r)])
            (set_tokens (<[rq_app r := t]> (tokens st))
               (set_inflight (delete i (inflight st)) st)))).
Proof.
  intros Hr Hans Hacc. unfold step, handle, token_response. rewrite Hr.
  unfold getConnection_resume, connectionManager.refreshToken_resume.
  rewrite Hans. unfold getConnection_open.
  match goal with
  | |- context [websocketAccepts ?c ?u t] =>
      change (websocketAccepts c u t)
        with (websocketAccepts (cfg st) (buildRealtimeUrl (rq_app r) st) t)
  end.
  rewrite Hacc. reflexivity.
Qed.

(** X9.  The first message of an unthrottled session that has no open
    socket, no attempt under way ([reconnecting] unset), no authentication
    in progress for its application, nothing under its key in the registry
    and no token in the store: the send posts the token request and sets
    the flag of the application, making no socket yet.  When the request
    yields a token and [new WebSocket] accepts the URL, the token is
    stored, the flag is cleared and one socket is made with it, registered
    under the key; when that socket opens the message (a truthy payload)
    is written on it, once, and the slot is empty. *)
Theorem X9_first_send_end_to_end (sid : nat) (s : session)
    (answer t input : json) (st : state) :
  sessions st !! sid = Some s →
  (throttleInterval s ≤ 0)%Z →
  ws_open s st = None →
  reconnecting s = false →
  connectionManager.isAuthInProgress (app s) st = false →
  connections st !! connectionKey s = None →
  truthy_opt (tokens st !! app s) = false →
  getToken_resume answer = Normal t →
  websocketAccepts (cfg st) (buildRealtimeUrl (app s) st) t = true →
  truthy input = true →
  let k := length (sockets st) in
  let request :=
    DispatchRequest "POST" ("https://" +:+ restApiUrl (cfg st) +:+ "/tokens/")
      (getToken_body (app s)) in
  let st1 := step (EvSend (Connection sid) input) st in
  let st2 := step (EvTokenResponse (length (inflight st)) (Some answer)) st1 in
  let st3 := step (EvSocketOpen k) st2 in
  (log st1 = log st ++ [request]
   ∧ sockets st1 = sockets st
   ∧ connectionManager.isAuthInProgress (app s) st1 = true)
  ∧ (sockets st2
     = sockets st ++
         [{| readyState := CONNECTING;
             ws_url := "wss://" +:+ app s +:+ "." +:+ host (cfg st) +:+ "/ws";
             ws_token := t; listeners := Some sid |}]
     ∧ connections st2 !! connectionKey s = Some k
     ∧ tokens st2 !! app s = Some t
     ∧ connectionManager.isAuthInProgress (app s) st2 = false
     ∧ log st2 = log st1)
  ∧ (log st3
     = log st ++
         [request; WsSend k ("uuid-" +:+ pretty (S (uuids st))) input]
     ∧ session_pending sid st3 = None
     ∧ session_reconnecting sid st3 = Some false).
Proof.
  intros Hs Hi Ho Hr Ha Hk Ht Hans Hacc Htr k request st1 st2 st3.
  set (r := {| rq_app := app s; rq_key := connectionKey s;
               rq_session := sid |}).
  assert (st1 = set_inflight (inflight st ++ [r])
                  (connectionManager.refreshToken (app s)
                     (connectionManager.setAuthInProgress (app s) true
                        (upd_session sid (with_reconnecting true)
                           (upd_session sid (with_pendingMessage (Some input))
                              (set_uuids (S (uuids st)) st)))))) as E1.
  { subst st1. unfold step, handle, connection_send.
    rewrite (send_unthrottled sid s) by done.
    by rewrite (_send_refresh sid s input st). }
  clearbody st1. subst st1.
  set (st1 := set_inflight (inflight st ++ [r])
                (connectionManager.refreshToken (app s)
                   (connectionManager.setAuthInProgress (app s) true
                      (upd_session sid (with_reconnecting true)
                         (upd_session sid (with_pendingMessage (Some input))
                            (set_uuids (S (uuids st)) st)))))) in *.
  assert (st2 = reconnect_then sid k
                  (connectionManager.set (connectionKey s) k
     (set_sockets
        (sockets st ++
           [{| readyState := CONNECTING;
               ws_url := buildRealtimeUrl (app s) st;
               ws_token := t; listeners := None |}])
                     (connectionManager.setAuthInProgress (app s) false
                        (set_timeouts
                           (timeouts st
                              ++ [((now st + token_timeout_ms)%Z, app s)])
                           (set_tokens (<[app s := t]> (tokens st))
                              (set_inflight
                                 (delete (length (inflight st))
                                    (inflight st ++ [r]))
                                 st1))))))) as E2.
  { subst st2.
    rewrite (step_token_accepted (length (inflight st)) r answer t st1);
      [|change (inflight st1) with (inflight st ++ [r]);
        by rewrite lookup_app_r, Nat.sub_diag by reflexivity
       |exact Hans|exact Hacc].
    reflexivity. }
  clearbody st2. subst st2.
  assert (Hss2 :
    sessions (reconnect_then sid k
       (connectionManager.set (connectionKey s) k
     (set_sockets
        (sockets st ++
           [{| readyState := CONNECTING;
               ws_url := buildRealtimeUrl (app s) st;
               ws_token := t; listeners := None |}])
          (connectionManager.setAuthInProgress (app s) false
             (set_timeouts
                (timeouts st ++ [((now st + token_timeout_ms)%Z, app s)])
                (set_tokens (<[app s := t]> (tokens st))
                   (set_inflight
                      (delete (length (inflight st)) (inflight st ++ [r]))
                      st1))))))) !! sid
    = Some (with_ws (Some k)
              (with_reconnecting true
                 (with_pendingMessage (Some input) s)))).
  { change (alter (with_ws (Some k)) sid
              (alter (with_reconnecting true) sid
                 (alter (with_pendingMessage (Some input)) sid (sessions st)))
            !! sid = Some (with_ws (Some k)
              (with_reconnecting true
                 (with_pendingMessage (Some input) s)))).
    by rewrite !list_lookup_alter_eq, Hs. }
  assert (Hso2 :
    sockets (reconnect_then sid k
       (connectionManager.set (connectionKey s) k
     (set_sockets
        (sockets st ++
           [{| readyState := CONNECTING;
               ws_url := buildRealtimeUrl (app s) st;
               ws_token := t; listeners := None |}])
          (connectionManager.setAuthInProgress (app s) false
             (set_timeouts
                (timeouts st ++ [((now st + token_timeout_ms)%Z, app s)])
                (set_tokens (<[app s := t]> (tokens st))
                   (set_inflight
                      (delete (length (inflight st)) (inflight st ++ [r]))
                      st1)))))))
    = sockets st ++
        [{| readyState := CONNECTING;
            ws_url := buildRealtimeUrl (app s) st;
            ws_token := t; listeners := Some sid |}]).
  { change (alter (with_listeners (Some sid)) (length (sockets st))
              (sockets st ++
                 [{| readyState := CONNECTING;
                     ws_url := buildRealtimeUrl (app s) st;
                     ws_token := t; listeners := None |}])
            = sockets st ++
                [{| readyState := CONNECTING;
                    ws_url := buildRealtimeUrl (app s) st;
                    ws_token := t; listeners := Some sid |}]).
    apply (alter_last (with_listeners (Some sid))). }
  split; [|split].
  - split; [reflexivity|]. split; [reflexivity|].
    unfold connectionManager.isAuthInProgress.
    change (authInProgress st1) with ({[app s]} ∪ authInProgress st).
    apply bool_decide_eq_true. apply elem_of_union_l.
    by apply elem_of_singleton.
  - split; [exact Hso2|].
    split; [apply lookup_insert_eq|].
    split; [apply lookup_insert_eq|].
    split; [|reflexivity].
    unfold connectionManager.isAuthInProgress.
    apply bool_decide_eq_false.
    change (app s ∉ ({[app s]} ∪ authInProgress st) ∖ {[app s]}).
    rewrite elem_of_difference, elem_of_singleton. by intros [_ Hne].
  - destruct (onopen_unthrottled sid
                (with_ws (Some k)
                   (with_reconnecting true
                      (with_pendingMessage (Some input) s)))
                k
                {| readyState := CONNECTING;
                   ws_url := buildRealtimeUrl (app s) st;
                   ws_token := t; listeners := Some sid |}
                input _ Hss2 eq_refl Htr eq_refl) as (P1 & P2 & P3).
    { rewrite Hso2. subst k. by rewrite lookup_app_r, Nat.sub_diag. }
    { reflexivity. }
    { reflexivity. }
    { exact Hi. }
    fold st3 in P1, P2, P3.
    split; [|split; [exact P1|exact P2]].
    rewrite P3.
    change ((log st ++ [request])
              ++ [WsSend k ("uuid-" +:+ pretty (S (uuids st))) input]
            = log st ++
                [request;
                 WsSend k ("uuid-" +:+ pretty (S (uuids st))) input]).
    rewrite <- app_assoc. reflexivity.
Qed.

Lemma X9_first_send_end_to_end_witness :
  let st := (connect "1-app" (demo_handler "K" (Some 0%Z))
               (init demo_config)).2 in
  let st3 :=
    run [EvSend (Connection 0) (prompt "a");
         EvTokenResponse 0 (Some (JStr "tok"));
         EvSocketOpen 0] st in
  log st3
  = [DispatchRequest "POST" ("https://" +:+ "rest.alpha.fal.ai" +:+ "/tokens/")
       (getToken_body "1-app");
     WsSend 0 ("uuid-" +:+ pretty 1) (prompt "a")]
  ∧ session_pending 0 st3 = None.
Proof.
  intros st st3.
  destruct (X9_first_send_end_to_end 0
              {| app := "1-app"; connectionKey := "K"; throttleInterval := 0;
                 pendingMessage := None; reconnecting := false; ws := None;
                 window := None |}
              (JStr "tok") (JStr "tok") (prompt "a") st
              ltac:(vm_compute; reflexivity) ltac:(vm_compute; discriminate)
              ltac:(vm_compute; reflexivity) ltac:(vm_compute; reflexivity)
              ltac:(vm_compute; reflexivity) ltac:(vm_compute; reflexivity)
              ltac:(vm_compute; reflexivity) ltac:(vm_compute; reflexivity)
              ltac:(vm_compute; reflexivity) ltac:(vm_compute; reflexivity))
    as (_ & _ & H3 & H4 & _).
  split; [exact H3|exact H4].
Defined.

(** ** Messages sent while an attempt is under way *)

(** X11.  While [reconnecting] is set and the socket is not open, messages
    sent through an unthrottled connection start nothing: no socket, no
    token request, no registry change and no frame, however many are sent;
    only the slot changes, and it ends up holding the last of them. *)
Theorem X11_sends_while_reconnecting (sid : nat) (ms : list json) :
  ∀ (s : session) (st : state),
    sessions st !! sid = Some s →
    (throttleInterval s ≤ 0)%Z →
    reconnecting s = true →
    ws_open s st = None →
    sockets (run (sends sid ms) st) = sockets st
    ∧ connections (run (sends sid ms) st) = connections st
    ∧ inflight (run (sends sid ms) st) = inflight st
    ∧ tokens (run (sends sid ms) st) = tokens st
    ∧ log (run (sends sid ms) st) = log st
    ∧ session_reconnecting sid (run (sends sid ms) st) = Some true
    ∧ session_pending sid (run (sends sid ms) st)
      = match last ms with Some m => Some m | None => pendingMessage s end.
Proof.
  induction ms as [|m ms IH]; intros s st Hs Hi Hr Ho.
  - unfold session_reconnecting, session_pending. simpl.
    rewrite Hs. simpl. by rewrite Hr.
  - change (run (sends sid (m :: ms)) st)
      with (run (sends sid ms) (drain (send sid m st))).
    rewrite (send_unthrottled sid s) by done.
    rewrite (_send_while_reconnecting sid s), drain_nil by done.
    destruct (IH (with_pendingMessage (Some m) s)
                (upd_session sid (with_pendingMessage (Some m))
                   (set_uuids (S (uuids st)) st)))
      as (H1 & H2 & H3 & H4 & H5 & H6 & H7); try done.
    { simpl. by rewrite list_lookup_alter_eq, Hs. }
    repeat split; try done.
    rewrite H7, last_cons. by destruct (last ms).
Qed.

Lemma X11_sends_while_reconnecting_witness :
  log (run (sends 0 [prompt "b"; prompt "c"; prompt "d"])
         demo_refresh_started)
  = log demo_refresh_started
  ∧ inflight (run (sends 0 [prompt "b"; prompt "c"; prompt "d"])
                demo_refresh_started)
    = inflight demo_refresh_started
  ∧ session_pending 0 (run (sends 0 [prompt "b"; prompt "c"; prompt "d"])
                         demo_refresh_started)
    = Some (prompt "d").
Proof.
  destruct (X11_sends_while_reconnecting 0
              [prompt "b"; prompt "c"; prompt "d"]
              {| app := "1-app"; connectionKey := "K"; throttleInterval := 0;
                 pendingMessage := Some (prompt "a"); reconnecting := true;
                 ws := None; window := None |}
              demo_refresh_started
              ltac:(vm_compute; reflexivity) ltac:(vm_compute; discriminate)
              ltac:(vm_compute; reflexivity) ltac:(vm_compute; reflexivity))
    as (_ & _ & H3 & _ & H5 & _ & H7).
  split; [exact H5|]. split; [exact H3|exact H7].
Defined.

(** X14.  When the socket opens and the slot holds a falsy payload (such as
    [0], [""], [false] or [null]), nothing is written and the payload stays
    in the slot; [reconnecting] is cleared all the same. *)
Theorem X14_falsy_pending_not_flushed (sid k : nat) (s : session)
    (w : WebSocket) (m : json) (st : state) :
  sessions st !! sid = Some s →
  pendingMessage s = Some m → truthy m = false →
  sockets st !! k = Some w → readyState w = CONNECTING →
  listeners w = Some sid →
  let st' := step (EvSocketOpen k) st in
  log st' = log st
  ∧ session_pending sid st' = Some m
  ∧ session_reconnecting sid st' = Some false
  ∧ readyState <$> sockets st' !! k = Some OPEN.
Proof.
  intros Hs Hp Ht Hw Hc Hl st'. subst st'.
  unfold step, handle, socket_open. rewrite Hw, decide_True by done.
  rewrite Hl. unfold onopen. rewrite lookup_upd_session.
  change (sessions (upd_socket k (with_readyState OPEN) st))
    with (sessions st).
  rewrite Hs. simpl. rewrite Hp, Ht, drain_nil.
  split; [done|].
  unfold session_pending, session_reconnecting. simpl.
  rewrite !list_lookup_alter_eq, Hs, Hw. simpl. by rewrite Hp.
Qed.

Lemma X14_falsy_pending_not_flushed_witness :
  let st' := step (EvSocketOpen 0) demo_falsy in
  log st' = log demo_falsy ∧ session_pending 0 st' = Some (JNum 0).
Proof.
  destruct (X14_falsy_pending_not_flushed 0 0
              {| app := "1-app"; connectionKey := "K"; throttleInterval := 0;
                 pendingMessage := Some (JNum 0); reconnecting := true;
                 ws := Some 0; window := None |}
              {| readyState := CONNECTING;
                 ws_url := "wss://1-app.gateway.alpha.fal.ai/ws";
                 ws_token := JStr "tok"; listeners := Some 0 |}
              (JNum 0) demo_falsy
              ltac:(vm_compute; reflexivity) ltac:(vm_compute; reflexivity)
              ltac:(vm_compute; reflexivity) ltac:(vm_compute; reflexivity)
              ltac:(vm_compute; reflexivity) ltac:(vm_compute; reflexivity))
    as (H1 & H2 & _).
  split; [exact H1|exact H2].
Defined.

(** ** Token expiry *)

(** X13.  The expiry timer of a token is never cancelled and deletes
    whatever token the store holds for the application when it fires: if a
    second token is stored [dt] ms after the first, the timer of the first
    removes the second one after only [108000 - dt] ms, while the timer of
    the second is still pending. *)
Theorem X13_stale_timer_removes_newer_token (a : string)
    (answer1 t1 answer2 t2 : json) (dt : Z) (st : state) :
  getToken_resume answer1 = Normal t1 →
  getToken_resume answer2 = Normal t2 →
  (0 ≤ dt < 108000)%Z →
  let st1 := (connectionManager.refreshToken_resume a (Some answer1) st).2 in
  let st2 :=
    (connectionManager.refreshToken_resume a (Some answer2)
       (step (EvTime dt) st1)).2 in
  let st3 :=
    step (EvTimeout (length (timeouts st)))
      (step (EvTime (108000 - dt)) st2) in
  tokens st2 !! a = Some t2
  ∧ now st3 = (now st + 108000)%Z
  ∧ tokens st3 !! a = None
  ∧ timeouts st3 = timeouts st ++ [((now st + dt + 108000)%Z, a)].
Proof.
  intros H1 H2 [Hlo Hhi] st1 st2 st3. subst st3 st2 st1.
  unfold step, handle. rewrite !drain_nil.
  unfold connectionManager.refreshToken_resume. rewrite H1. simpl.
  destruct (0 <=? dt)%Z eqn:E; [|lia]. rewrite H2. simpl.
  destruct (0 <=? 108000 - dt)%Z eqn:E2; [|lia].
  change token_timeout_ms with 108000%Z.
  split; [apply lookup_insert_eq|].
  unfold token_timeout. simpl.
  rewrite <- app_assoc. simpl.
  rewrite lookup_app_r, Nat.sub_diag by done. simpl.
  destruct (now st + 108000 <=? now st + dt + (108000 - dt))%Z eqn:E3; [|lia].
  simpl. split; [lia|]. split; [apply lookup_delete_eq|].
  by rewrite delete_middle.
Qed.

Lemma X13_stale_timer_removes_newer_token_witness :
  let st1 :=
    (connectionManager.refreshToken_resume "1-app" (Some (JStr "t1"))
       (init demo_config)).2 in
  let st2 :=
    (connectionManager.refreshToken_resume "1-app" (Some (JStr "t2"))
       (step (EvTime 100000) st1)).2 in
  let st3 := step (EvTimeout 0) (step (EvTime (108000 - 100000)) st2) in
  tokens st2 !! "1-app" = Some (JStr "t2")
  ∧ tokens st3 !! "1-app" = None
  ∧ timeouts st3 = [(208000%Z, "1-app")].
Proof.
  destruct (X13_stale_timer_removes_newer_token "1-app"
              (JStr "t1") (JStr "t1") (JStr "t2") (JStr "t2") 100000
              (init demo_config) eq_refl eq_refl ltac:(lia))
    as (H1 & _ & H3 & H4).
  split; [exact H1|]. split; [exact H3|exact H4].
Defined.

(** ** A key that is registered while a token is awaited *)

(** X15.  [getConnection] does not look at the registry again after the
    token has arrived.  If the key was registered in the meantime, then,
    when the token request yields a token and [new WebSocket] accepts the
    URL, the entry is replaced by the new socket; the earlier socket is
    left as it is, open or connecting, and nothing closes it. *)
Theorem X15_late_token_replaces_entry (i k0 : nat) (r : token_request)
    (w0 : WebSocket) (answer t : json) (st : state) :
  inflight st !! i = Some r →
  getToken_resume answer = Normal t →
  websocketAccepts (cfg st) (buildRealtimeUrl (rq_app r) st) t = true →
  connections st !! rq_key r = Some k0 →
  sockets st !! k0 = Some w0 →
  let st' := step (EvTokenResponse i (Some answer)) st in
  connections st' !! rq_key r = Some (length (sockets st))
  ∧ length (sockets st) ≠ k0
  ∧ sockets st' !! k0 = Some w0
  ∧ length (sockets st') = S (length (sockets st))
  ∧ log st' = log st.
Proof.
  intros Hr Hans Hacc Hk Hw st'. subst st'.
  rewrite (step_token_accepted i r answer t st Hr Hans Hacc).
  assert (k0 < length (sockets st)) as Hlt by by eapply lookup_lt_Some.
  split; [apply lookup_insert_eq|]. split; [lia|]. split; [|split; [|done]].
  - change (alter (with_listeners (Some (rq_session r)))
              (length (sockets st))
              (sockets st ++
                 [{| readyState := CONNECTING;
                     ws_url := buildRealtimeUrl (rq_app r) st;
                     ws_token := t; listeners := None |}]) !! k0 = Some w0).
    rewrite list_lookup_alter_ne by lia. by rewrite lookup_app_l.
  - change (length
              (alter (with_listeners (Some (rq_session r)))
                 (length (sockets st))
                 (sockets st ++
                    [{| readyState := CONNECTING;
                        ws_url := buildRealtimeUrl (rq_app r) st;
                        ws_token := t; listeners := None |}]))
            = S (length (sockets st))).
    rewrite length_alter, length_app. simpl. lia.
Qed.

Lemma X15_late_token_replaces_entry_witness :
  let st' := step (EvTokenResponse 0 (Some (JStr "tok2"))) demo_two_apps in
  connections demo_two_apps !! "K" = Some 0
  ∧ connections st' !! "K" = Some 1
  ∧ readyState <$> sockets st' !! 0 = Some CONNECTING.
Proof.
  destruct (X15_late_token_replaces_entry 0 0
              {| rq_app := "2-app"; rq_key := "K"; rq_session := 1 |}
              {| readyState := CONNECTING;
                 ws_url := "wss://1-app.gateway.alpha.fal.ai/ws";
                 ws_token := JStr "tok1"; listeners := Some 0 |}
              (JStr "tok2") (JStr "tok2") demo_two_apps
              ltac:(vm_compute; reflexivity) eq_refl
              ltac:(vm_compute; reflexivity)
              ltac:(vm_compute; reflexivity) ltac:(vm_compute; reflexivity))
    as (H1 & _ & H3 & _).
  split; [vm_compute; reflexivity|]. split; [exact H1|].
  by rewrite H3.
Defined.

(** ** A URL that [new WebSocket] refuses *)

Lemma _send_refused sid s t input st :
  sessions st !! sid = Some s →
  ws_open s st = None →
  reconnecting s = false →
  connectionManager.isAuthInProgress (app s) st = false →
  connections st !! connectionKey s = None →
  tokens st !! app s = Some t → truthy t = true →
  websocketAccepts (cfg st) (buildRealtimeUrl (app s) st) t = false →
  _send sid input st
  = (upd_session sid (with_reconnecting true)
       (upd_session sid (with_pendingMessage (Some input))
          (set_uuids (S (uuids st)) st)), [MtRejected sid]).
Proof.
  intros Hs Ho Hr Ha Hk Ht Htt Hacc. unfold _send. rewrite Hs. simpl.
  change (ws_open s (set_uuids (S (uuids st)) st)) with (ws_open s st).
  rewrite Ho, Hr. unfold reconnect.
  rewrite !lookup_upd_session. simpl. rewrite Hs. simpl.
  assert (ws_open
            (with_reconnecting true (with_pendingMessage (Some input) s))
            (upd_session sid (with_reconnecting true)
               (upd_session sid (with_pendingMessage (Some input))
                  (set_uuids (S (uuids st)) st))) = None) as ->.
  { exact Ho. }
  unfold connectionManager.isAuthInProgress in *. simpl. rewrite Ha.
  unfold getConnection, connectionManager.isAuthInProgress,
    connectionManager.has, connectionManager.get,
    connectionManager.token. simpl.
  rewrite Ha, Hk. rewrite bool_decide_false by by intros [? ?].
  rewrite Ht, Htt. unfold getConnection_open.
  change (websocketAccepts (cfg st) (buildRealtimeUrl (app s) st) t)
    with (websocketAccepts
            (cfg (upd_session sid (with_reconnecting true)
                    (upd_session sid (with_pendingMessage (Some input))
                       (set_uuids (S (uuids st)) st))))
            (buildRealtimeUrl (app s)
               (upd_session sid (with_reconnecting true)
                  (upd_session sid (with_pendingMessage (Some input))
                     (set_uuids (S (uuids st)) st)))) t) in Hacc.
  by rewrite Hacc.
Qed.

(** X16.  An unthrottled session with no open socket, no attempt under
    way, no authentication in progress for its application and nothing
    under its key sends a message, and [new WebSocket] refuses the URL made
    for its application and token: the constructor throws.  No socket is
    made and nothing is registered; [onError] is called once, with status
    500 and the message of a failed opening; the message stays in the slot
    and [reconnecting] stays set.  With a token in the store this happens
    in the task of the send; with none, the token request is made first,
    and the token that arrives is stored and the flag cleared before the
    constructor throws. *)
Theorem X16_refused_url (sid : nat) (s : session) (t input : json)
    (st : state) :
  sessions st !! sid = Some s →
  (throttleInterval s ≤ 0)%Z →
  ws_open s st = None →
  reconnecting s = false →
  connectionManager.isAuthInProgress (app s) st = false →
  connections st !! connectionKey s = None →
  websocketAccepts (cfg st) (buildRealtimeUrl (app s) st) t = false →
  let failure :=
    OnError sid {| message := "Error opening connection"; status := 500 |} in
  (tokens st !! app s = Some t → truthy t = true →
   let st' := step (EvSend (Connection sid) input) st in
   sockets st' = sockets st
   ∧ connections st' = connections st
   ∧ inflight st' = inflight st
   ∧ log st' = log st ++ [failure]
   ∧ session_pending sid st' = Some input
   ∧ session_reconnecting sid st' = Some true)
  ∧ (truthy_opt (tokens st !! app s) = false →
     ∀ answer, getToken_resume answer = Normal t →
     let st1 := step (EvSend (Connection sid) input) st in
     let st2 :=
       step (EvTokenResponse (length (inflight st)) (Some answer)) st1 in
     sockets st2 = sockets st
     ∧ connections st2 = connections st
     ∧ inflight st2 = inflight st
     ∧ tokens st2 !! app s = Some t
     ∧ connectionManager.isAuthInProgress (app s) st2 = false
     ∧ log st2 = log st1 ++ [failure]
     ∧ session_pending sid st2 = Some input
     ∧ session_reconnecting sid st2 = Some true).
Proof.
  intros Hs Hi Ho Hr Ha Hk Hacc failure. split.
  - intros Ht Htt st'. subst st'.
    unfold step, handle, connection_send.
    rewrite (send_unthrottled sid s) by done.
    rewrite (_send_refused sid s t input st) by done.
    rewrite drain_rejected.
    do 4 (split; [done|]). split.
    + unfold session_pending. simpl. by rewrite !list_lookup_alter_eq, Hs.
    + unfold session_reconnecting. simpl.
      by rewrite !list_lookup_alter_eq, Hs.
  - intros Ht answer Hans st1 st2.
    set (r := {| rq_app := app s; rq_key := connectionKey s;
                 rq_session := sid |}).
    assert (st1 = set_inflight (inflight st ++ [r])
                    (connectionManager.refreshToken (app s)
                       (connectionManager.setAuthInProgress (app s) true
                          (upd_session sid (with_reconnecting true)
                             (upd_session sid
                                (with_pendingMessage (Some input))
                                (set_uuids (S (uuids st)) st)))))) as E1.
    { subst st1. unfold step, handle, connection_send.
      rewrite (send_unthrottled sid s) by done.
      by rewrite (_send_refresh sid s input st). }
    assert (inflight st1 !! length (inflight st) = Some r) as Hr1.
    { rewrite E1. simpl. by rewrite lookup_app_r, Nat.sub_diag. }
    assert (websocketAccepts (cfg st1) (buildRealtimeUrl (rq_app r) st1) t
            = false) as Hacc1.
    { by rewrite E1. }
    subst st2.
    rewrite (step_token_refused _ r answer t st1 Hr1 Hans Hacc1).
    rewrite E1.
    split; [done|]. split; [done|].
    split.
    { simpl. rewrite delete_take_drop.
      rewrite take_app_length, drop_ge; [by rewrite app_nil_r|].
      rewrite length_app. simpl. lia. }
    split; [simpl; apply lookup_insert_eq|].
    split.
    { unfold connectionManager.isAuthInProgress. simpl.
      apply bool_decide_eq_false.
      rewrite elem_of_difference, elem_of_singleton. by intros [_ Hne]. }
    split; [done|]. split.
    + unfold session_pending. simpl. by rewrite !list_lookup_alter_eq, Hs.
    + unfold session_reconnecting. simpl.
      by rewrite !list_lookup_alter_eq, Hs.
Qed.

Lemma X16_refused_url_witness :
  let st1 := step (EvSend (Connection 0) (prompt "a")) demo_refused in
  let st2 := step (EvTokenResponse 0 (Some (JStr "tok"))) st1 in
  sockets st2 = []
  ∧ connections st2 = ∅
  ∧ tokens st2 !! "1-a b" = Some (JStr "tok")
  ∧ log st2
    = log st1 ++
        [OnError 0
           {| message := "Error opening connection"; status := 500 |}]
  ∧ session_reconnecting 0 st2 = Some true.
Proof.
  destruct (proj2 (X16_refused_url 0
              {| app := "1-a b"; connectionKey := "K"; throttleInterval := 0;
                 pendingMessage := None; reconnecting := false; ws := None;
                 window := None |}
              (JStr "tok") (prompt "a") demo_refused
              ltac:(vm_compute; reflexivity) ltac:(vm_compute; discriminate)
              ltac:(vm_compute; reflexivity) ltac:(vm_compute; reflexivity)
              ltac:(vm_compute; reflexivity) ltac:(vm_compute; reflexivity)
              ltac:(vm_compute; reflexivity))
            ltac:(vm_compute; reflexivity) (JStr "tok") eq_refl)
    as (H1 & H2 & _ & H4 & _ & H6 & _ & H8).
  split; [exact H1|]. split; [exact H2|]. split; [exact H4|].
  split; [exact H6|exact H8].
Defined.

(** * The pending message slot, end to end *)




















(** Sends made one per task are blocks of one call each. *)
Lemma run_sends_single sid ms : ∀ st,
  run (sends sid ms) st
  = run (send_block (Connection sid) <$> ((λ m, [m]) <$> ms)) st.
Proof.
  induction ms as [|m ms IH]; intros st; [done|].
  change (run (sends sid (m :: ms)) st)
    with (run (sends sid ms) (step (EvSend (Connection sid) m) st)).
  change (run (send_block (Connection sid) <$> ((λ m, [m]) <$> m :: ms)) st)
    with (run (send_block (Connection sid) <$> ((λ m, [m]) <$> ms))
            (step (EvCalls [CallSend (Connection sid) m]) st)).
  by rewrite step_single_call, IH.
Qed.



